(** * summy_gcp: the reply pipeline of the Telegram summariser bot

    A shallow embedding of the Python sources
    - [utils/telegram_utils.py]   (the formatter),
    - [services/config_manager.py] (the configuration store),
    - [utils/openai_utils.py], [services/text_summarizer.py] (prompts),
    - [services/text_extractor.py] (container selection over the parsed page),
    - [bot/telegram_bot.py]        (the /set, /get, /summ, /resp and PDF handlers),
    - [aws/dynamodb_manager.py], [aws/s3_manager.py] (the AWS managers),
    followed by the properties the specification states about them. *)

From Stdlib Require Import ZArith NArith List Ascii String Bool Lia DecimalString.
From Stdlib Require DecimalPos.
From stdpp Require Import base gmap strings.
Import ListNotations.

Local Open Scope list_scope.

(** ** Python values *)

Module Py.

(** A Python [str] is a sequence of Unicode code points; [len] counts code
    points, so a character is its code point. *)
Abbreviation char := N (only parsing).
Abbreviation str := (list N) (only parsing).

(** String literals of the sources (all of them ASCII). *)
Definition lit (s : string) : str := map N_of_ascii (list_ascii_of_string s).

Definition nl : char := 10%N.   (* the character written \n in the sources *)

Definition char_eqb (a b : char) : bool := N.eqb a b.

Fixpoint str_eqb (s t : str) : bool :=
  match s, t with
  | [], [] => true
  | a :: s', b :: t' => char_eqb a b && str_eqb s' t'
  | _, _ => false
  end.

(** [s.startswith(p)] *)
Fixpoint starts_with (p s : str) : bool :=
  match p, s with
  | [], _ => true
  | a :: p', b :: s' => char_eqb a b && starts_with p' s'
  | _ :: _, [] => false
  end.

(** [s.endswith(suffix)] *)
Definition ends_with (suffix s : str) : bool := starts_with (rev suffix) (rev s).

(** [old in s]: some suffix of [s] starts with [old]. *)
Fixpoint occurs (old s : str) : bool :=
  starts_with old s ||
  match s with
  | [] => false
  | _ :: s' => occurs old s'
  end.

(** [s.replace(old, new)] for a non-empty [old]: a left-to-right scan that
    replaces every non-overlapping occurrence.  [skip] counts the characters
    of the occurrence just replaced that are still to be passed over. *)
Fixpoint replace_from (old new : str) (skip : nat) (s : str) : str :=
  match s with
  | [] => []
  | c :: s' =>
      match skip with
      | S k => replace_from old new k s'
      | O =>
          if starts_with old s
          then new ++ replace_from old new (length old - 1) s'
          else c :: replace_from old new 0 s'
      end
  end.

(** [s.replace(old, new)]; with an empty [old] Python puts [new] before every
    character and at the end. *)
Definition replace (old new s : str) : str :=
  match old with
  | [] => new ++ flat_map (fun c => c :: new) s
  | _ :: _ => replace_from old new 0 s
  end.

(** [s[:k]]: a negative bound counts from the end of the string. *)
Definition slice_to (k : Z) (s : str) : str :=
  if (0 <=? k)%Z then firstn (Z.to_nat k) s
  else firstn (Z.to_nat (Z.of_nat (length s) + k)) s.

(** [sep.join(parts)] *)
Fixpoint join (sep : str) (parts : list str) : str :=
  match parts with
  | [] => []
  | [p] => p
  | p :: rest => p ++ sep ++ join sep rest
  end.

(** The characters [str.strip()] removes: those for which [str.isspace] holds. *)
Definition is_space (c : char) : bool :=
  ((9 <=? c) && (c <=? 13) || (28 <=? c) && (c <=? 32) ||
   (c =? 133) || (c =? 160) || (c =? 5760) ||
   (8192 <=? c) && (c <=? 8202) ||
   (c =? 8232) || (c =? 8233) || (c =? 8239) || (c =? 8287) || (c =? 12288))%N.

Fixpoint lstrip (s : str) : str :=
  match s with
  | c :: s' => if is_space c then lstrip s' else s
  | [] => []
  end.

Definition rstrip (s : str) : str := rev (lstrip (rev s)).

(** [s.strip()] *)
Definition strip (s : str) : str := rstrip (lstrip s).

(** [s.lower()] on the ASCII letters (the sources only compare the result
    with the ASCII word pdf, which no other code point lowers into). *)
Definition lower_char (c : char) : char :=
  if ((65 <=? c) && (c <=? 90))%N then (c + 32)%N else c.
Definition lower (s : str) : str := map lower_char s.

(** The values a configuration document holds. *)
Inductive value : Type :=
| PyNone
| PyBool (b : bool)
| PyInt (n : Z)
| PyStr (s : str).

#[global] Instance value_eq_dec : EqDecision value.
Proof. solve_decision. Defined.

(** [str(v)], as an f-string renders a value. *)
Definition str_of_int (n : Z) : str := lit (NilZero.string_of_int (Z.to_int n)).

Definition to_str (v : value) : str :=
  match v with
  | PyNone => lit "None"
  | PyBool true => lit "True"
  | PyBool false => lit "False"
  | PyInt n => str_of_int n
  | PyStr s => s
  end.

(** [v == s] for a string [s]. *)
Definition eq_str (v : value) (s : str) : bool :=
  match v with
  | PyStr t => str_eqb t s
  | _ => false
  end.

(** A value used where the code needs an [int] ([bool] is a subclass of
    [int]); [None] for the values on which the operation raises TypeError. *)
Definition as_int (v : value) : option Z :=
  match v with
  | PyInt n => Some n
  | PyBool b => Some (if b then 1 else 0)%Z
  | _ => None
  end.

(** A dictionary with string keys; [d.get(k)] is [None] on a missing key. *)
Definition dict_get (d : gmap string value) (k : string) : value :=
  match d !! k with
  | Some v => v
  | None => PyNone
  end.

End Py.

Import Py.

(** ** utils/telegram_utils.py *)

Module TelegramUtils.

Definition tags_to_remove : list str :=
  map lit ["<html>"; "</html>"; "<body>"; "</body>"; "<p>"; "</p>"; "<ul>"; "</ul>"]%string.

Definition tags_to_replace : list (str * str) :=
  [ (lit "<li>", nl :: lit "- "); (lit "</li>", []) ].

(** The body of [prepare_message_for_telegram] up to the length test: the tag
    replacements, the tag removals, the removal of the three characters, and
    the two line-break insertions. *)
Definition clean_markup (summary : str) : str :=
  let summary :=
    fold_left (fun s tr => replace (fst tr) (snd tr) s) tags_to_replace summary in
  let summary := fold_left (fun s tag => replace tag [] s) tags_to_remove summary in
  let summary :=
    replace (lit ">") [] (replace (lit "<") [] (replace (lit "&") [] summary)) in
  replace (lit ". ") (lit "." ++ [nl])
    (replace (lit "- ") (nl :: lit "-  ") summary).

Definition prepare_message_for_telegram (summary : str) (max_chars : Z) : str :=
  let summary := clean_markup summary in
  if (max_chars <? Z.of_nat (length summary))%Z
  then slice_to (max_chars - 3) summary ++ lit "..."
  else summary.

End TelegramUtils.

Import TelegramUtils.

(** ** constants/telegram_constants.py *)

Module TelegramConstants.

Definition TELEGRAM_MESSAGE_SIZE_LIMIT : Z := 4096.

End TelegramConstants.

Import TelegramConstants.

(** ** The world the bot runs in *)

Module Runtime.

(** Exceptions.  [ServiceError] stands for whatever exception a client of an
    external service raises (Firestore, Cloud Storage, the browser). *)
Inductive exn : Type :=
| ValueError (msg : str)
| TypeError
| KeyError (key : string)
| ServiceError (what : string).

Inductive result (A : Type) : Type :=
| Ret (a : A)
| Raise (e : exn).
Arguments Ret {A} a.
Arguments Raise {A} e.

(** A message sent to the chat: [reply_text] or [reply_html]. *)
Inductive message : Type :=
| ReplyText (s : str)
| ReplyHtml (s : str).

(** The state outside the process:
    - [config_doc]: the Firestore document [config] ([None]: it does not exist);
    - [last_article]: the Cloud Storage blob [Last_Article];
    - [outbox]: the replies sent so far, oldest first;
    - [prompts]: the prompts sent to the completion service, oldest first;
    - [faults]: for each coming call to Firestore or Cloud Storage, whether
      it raises (an exhausted list: no call raises). *)
Record world : Type := World {
  config_doc : option (gmap string value);
  last_article : option str;
  outbox : list message;
  prompts : list str;
  faults : list bool
}.

Definition set_config_doc (d : option (gmap string value)) (w : world) : world :=
  World d (last_article w) (outbox w) (prompts w) (faults w).
Definition set_last_article (a : option str) (w : world) : world :=
  World (config_doc w) a (outbox w) (prompts w) (faults w).
Definition set_outbox (o : list message) (w : world) : world :=
  World (config_doc w) (last_article w) o (prompts w) (faults w).
Definition set_prompts (p : list str) (w : world) : world :=
  World (config_doc w) (last_article w) (outbox w) p (faults w).
Definition set_faults (f : list bool) (w : world) : world :=
  World (config_doc w) (last_article w) (outbox w) (prompts w) f.

(** Computations: state passing, with exceptions. *)
Definition M (A : Type) : Type := world -> result A * world.

Definition ret {A} (a : A) : M A := fun w => (Ret a, w).
Definition raise {A} (e : exn) : M A := fun w => (Raise e, w).
Definition bind {A B} (m : M A) (k : A -> M B) : M B :=
  fun w =>
    match m w with
    | (Ret a, w') => k a w'
    | (Raise e, w') => (Raise e, w')
    end.

(** [try: m  except Exception as e: h e] *)
Definition try_except {A} (m : M A) (h : exn -> M A) : M A :=
  fun w =>
    match m w with
    | (Ret a, w') => (Ret a, w')
    | (Raise e, w') => h e w'
    end.

Notation "'let*' x ':=' m 'in' k" := (bind m (fun x => k))
  (at level 10, x name, m at level 200, k at level 200).
Notation "m1 ';;' m2" := (bind m1 (fun _ => m2))
  (at level 100, m2 at level 200, right associativity).

(** One call to Firestore or Cloud Storage: it consults the fault schedule.
    A call that raises has not changed what is stored. *)
Definition cloud_call (what : string) : M unit :=
  fun w =>
    match faults w with
    | [] => (Ret tt, w)
    | false :: rest => (Ret tt, set_faults rest w)
    | true :: rest => (Raise (ServiceError what), set_faults rest w)
    end.

(** [doc_ref.get()]: the snapshot; [None] when [doc.exists] is false. *)
Definition doc_get : M (option (gmap string value)) :=
  cloud_call "firestore" ;; fun w => (Ret (config_doc w), w).

(** [doc_ref.set(d)]: the document is replaced by [d]. *)
Definition doc_set (d : gmap string value) : M unit :=
  cloud_call "firestore" ;; fun w => (Ret tt, set_config_doc (Some d) w).

(** [blob.upload_from_string(text)] on the blob [Last_Article]. *)
Definition blob_upload (text : str) : M unit :=
  cloud_call "storage" ;; fun w => (Ret tt, set_last_article (Some text) w).

(** [blob.download_as_text()]: raises when the blob does not exist. *)
Definition blob_download : M str :=
  cloud_call "storage" ;;
  fun w =>
    match last_article w with
    | Some text => (Ret text, w)
    | None => (Raise (ServiceError "storage"), w)
    end.

Definition reply_text (s : str) : M unit :=
  fun w => (Ret tt, set_outbox (outbox w ++ [ReplyText s]) w).
Definition reply_html (s : str) : M unit :=
  fun w => (Ret tt, set_outbox (outbox w ++ [ReplyHtml s]) w).

(** [d[k]] *)
Definition subscript (d : gmap string value) (k : string) : M value :=
  match d !! k with
  | Some v => ret v
  | None => raise (KeyError k)
  end.

(** No coming storage call raises. *)
Definition healthy (w : world) : Prop := Forall (fun b => b = false) (faults w).

(** The coming storage call raises. *)
Definition storage_fails (w : world) : bool :=
  match faults w with
  | true :: _ => true
  | _ => false
  end.

(** The world once [k] storage calls have used up their entries of the
    fault schedule. *)
Definition drain (k : nat) (w : world) : world := set_faults (skipn k (faults w)) w.

End Runtime.

Import Runtime.

(** ** services/config_manager.py *)

Module ConfigManager.

Definition config_of (lang : str) (words_limit telegram_message_size_limit : Z)
  : gmap string value :=
  <["lang" := PyStr lang]>
    (<["words_limit" := PyInt words_limit]>
       (<["telegram_message_size_limit" := PyInt telegram_message_size_limit]> ∅)).

Definition default_config : gmap string value := config_of (lit "eng") 300 4096.

Definition read_or_initialize_config : M (gmap string value) :=
  let* doc := doc_get in
  match doc with
  | Some d => ret d
  | None => doc_set default_config ;; ret default_config
  end.

(** The arguments carry the types of the signature, so
    [isinstance(_, int)] holds of every [Z]. *)
Definition isinstance_int (n : Z) : bool := true.

Definition update_config (lang : str) (words_limit telegram_message_size_limit : Z)
  : M bool :=
  if negb (existsb (str_eqb lang) [lit "eng"; lit "heb"])
  then raise (ValueError (lit "Language must be either 'eng' or 'heb'"))
  else if negb (isinstance_int words_limit)
          || (words_limit <? 0)%Z || (800 <? words_limit)%Z
  then raise (ValueError (lit "words_limit must be an integer between 0 and 800"))
  else if negb (isinstance_int telegram_message_size_limit)
          || (telegram_message_size_limit <? 1)%Z
          || (4096 <? telegram_message_size_limit)%Z
  then raise (ValueError
                (lit "telegram_message_size_limit must be an integer between 1 and 4096"))
  else
    try_except
      (doc_set (config_of lang words_limit telegram_message_size_limit) ;; ret true)
      (fun _ => ret false).

End ConfigManager.

Import ConfigManager.

(** ** utils/openai_utils.py *)

Module OpenAIUtils.

Section Completion.

(** [openai.chat.completions.create]: the text of the first choice the
    service gives to the [k]-th request of the run, or the exception the
    client raises. *)
Variable completion : nat -> str -> result str.

(** One request with the fixed parameters (model, max_tokens 2048,
    temperature 0.7, n 1) and the prompt as the only message. *)
Definition chat_completions_create (prompt : str) : M str :=
  fun w => (completion (length (prompts w)) prompt, set_prompts (prompts w ++ [prompt]) w).

(** The prompt [get_openai_summary] builds. *)
Definition summary_prompt (text : str) (is_webpage : bool) (config : gmap string value)
  : str :=
  let translation_instruction :=
    if eq_str (dict_get config "lang") (lit "heb")
    then lit "Translate the answer to Hebrew, except Brands or technology terms and definitions. "
    else [] in
  let base_prompt :=
    translation_instruction
    ++ lit "Summarize this text extracted from a "
    ++ (if is_webpage then lit "webpage" else lit "article") ++ lit "." in
  let base_prompt :=
    if is_webpage
    then base_prompt ++ lit "Remove any non-article elements like ads or navigation links. "
    else base_prompt in
  let base_prompt :=
    base_prompt
    ++ (lit "Please provide a concise summary of the following article, "
        ++ lit "focusing on the main points, arguments, and conclusions. "
        ++ lit "The summary should be clear, informative, and no longer than "
        ++ to_str (dict_get config "words_limit") ++ lit " words. "
        ++ lit "Replace bullet points with dashes (-), and use spaces to indicate indentation. ") in
  base_prompt ++ [nl; nl] ++ text.

Definition get_openai_summary (text : str) (is_webpage : bool)
    (config : gmap string value) : M str :=
  let prompt := summary_prompt text is_webpage config in
  try_except
    (let* content := chat_completions_create prompt in ret (strip content))
    (fun e => raise e).

Definition get_openai_response (prompt : str) : M str :=
  try_except
    (let* content := chat_completions_create prompt in ret (strip content))
    (fun e => raise e).

End Completion.

End OpenAIUtils.

Import OpenAIUtils.

(** ** services/text_summarizer.py *)

Module TextSummarizer.

(** [prepare_message_for_telegram(summary, limit)] on a limit read from the
    configuration: the comparison with [len(summary)] raises TypeError when
    the limit is not a number. *)
Definition prepare_with (summary : str) (limit : value) : M str :=
  match as_int limit with
  | Some max_chars => ret (prepare_message_for_telegram summary max_chars)
  | None => raise TypeError
  end.

Section Completion.

Variable completion : nat -> str -> result str.

Definition summarize (text : str) (is_webpage : bool) (config : gmap string value)
  : M str :=
  let* summary := get_openai_summary completion text is_webpage config in
  let* limit := subscript config "telegram_message_size_limit" in
  prepare_with summary limit.

(** [respond] passes [config] as a second argument to
    [get_openai_response], which takes the prompt only: the call raises
    TypeError before anything is sent. *)
Definition respond (prompt : str) (config : gmap string value) : M str :=
  raise TypeError.

End Completion.

End TextSummarizer.

Import TextSummarizer.

(** ** services/text_extractor.py *)

Module TextExtractor.

(** The parsed page, as BeautifulSoup holds it: strings, comments (and the
    other strings that [stripped_strings] leaves out) and tags with their
    [class] list. *)
#[local] Unset Elimination Schemes.
Inductive node : Type :=
| NavigableString (s : str)
| Comment (s : str)
| Tag (name : str) (classes : list str) (children : list node).
#[local] Set Elimination Schemes.

Definition has_name (names : list str) (n : node) : bool :=
  match n with
  | Tag name _ _ => existsb (str_eqb name) names
  | _ => false
  end.

Definition has_name_class (name class : str) (n : node) : bool :=
  match n with
  | Tag nm classes _ => str_eqb nm name && existsb (str_eqb class) classes
  | _ => false
  end.

(** [tag.descendants]: the nodes below a tag, in document order. *)
Fixpoint descendants (n : node) : list node :=
  match n with
  | Tag _ _ children => flat_map (fun c => c :: descendants c) children
  | _ => []
  end.

(** [tag.find(...)]: the first descendant, in document order, that matches;
    [None] when there is none. *)
Fixpoint find (p : node -> bool) (n : node) : option node :=
  match n with
  | Tag _ _ children =>
      (fix first_in (l : list node) : option node :=
         match l with
         | [] => None
         | c :: l' =>
             if p c then Some c
             else match find p c with
                  | Some r => Some r
                  | None => first_in l'
                  end
         end) children
  | _ => None
  end.

(** The page once every tag found by [soup(names)] has been decomposed. *)
Fixpoint decompose_all (names : list str) (n : node) : node :=
  match n with
  | Tag name classes children =>
      Tag name classes
        ((fix prune (l : list node) : list node :=
            match l with
            | [] => []
            | c :: l' =>
                if has_name names c then prune l'
                else decompose_all names c :: prune l'
            end) children)
  | _ => n
  end.

(** [tag.stripped_strings]: the strings below the tag, each stripped, the
    empty ones left out. *)
Definition stripped (n : node) : option str :=
  match n with
  | NavigableString s =>
      match strip s with
      | [] => None
      | t => Some t
      end
  | _ => None
  end.

Definition stripped_strings (n : node) : list str :=
  omap stripped (descendants n).

(** [a or b] on the results of [find]: a tag is always true, [None] false. *)
Definition or_else (a b : option node) : option node :=
  match a with
  | Some t => Some t
  | None => b
  end.

Definition article_body (soup : node) : option node :=
  or_else (find (has_name [lit "article"]) soup)
    (or_else (find (has_name_class (lit "div") (lit "article-content")) soup)
       (find (has_name [lit "main"]) soup)).

(** [extract_from_url] from the parsed page on. *)
Definition extract_from_soup (soup : node) : str * bool :=
  match article_body soup with
  | Some body => (join (lit " ") (stripped_strings body), false)
  | None => (join (lit " ") (stripped_strings soup), true)
  end.

Section Browser.

(** The page the headless browser renders for a URL, parsed by
    [BeautifulSoup(content, 'html.parser')], or the exception raised on the
    way. *)
Variable render : str -> result node.

Definition extract_from_url (url : str) : M (str * bool) :=
  let* content := (fun w => (render url, w)) in
  let soup := decompose_all [lit "script"; lit "style"] content in
  ret (extract_from_soup soup).

End Browser.

(** An uploaded file, as the handler reads it off the message. *)
Record document : Type := Document { file_id : str; mime_type : str }.

Section Pdf.

(** The text pdfminer extracts from the downloaded file, or the exception
    raised on the way. *)
Variable pdf_text : str -> result str.

Definition extract_from_pdf (doc : document) : M str :=
  fun w => (pdf_text (file_id doc), w).

End Pdf.

End TextExtractor.

Import TextExtractor.

(** ** Numerals and lists in the commands *)

Module PyText.

Definition is_ascii_digit (c : char) : bool := ((48 <=? c) && (c <=? 57))%N.

(** The number a string of ASCII digits writes. *)
Definition digits_value (s : str) : Z :=
  fold_left (fun acc c => (10 * acc + Z.of_N (c - 48))%Z) s 0%Z.

Definition all_ascii_digits (s : str) : bool :=
  match s with
  | [] => false
  | _ :: _ => forallb is_ascii_digit s
  end.

(** [sep.split] on a one-character separator: the pieces between the
    separators, empty ones included; the empty string has one empty piece. *)
Fixpoint split (sep : char) (s : str) : list str :=
  match s with
  | [] => [[]]
  | c :: s' =>
      if char_eqb c sep then [] :: split sep s'
      else match split sep s' with
           | piece :: pieces => (c :: piece) :: pieces
           | [] => [[c]]
           end
  end.

(** [bool(d)] for a dictionary: it is not empty. *)
Definition dict_truth (d : gmap string value) : bool := negb (Nat.eqb (size d) 0).

Section Unicode.

(** [str.isdigit] on the code points from 128 on, and [int] on the strings
    that are not made of at most 4300 ASCII digits (other digits, signs,
    blanks, underscores, or a numeral beyond the interpreter's digit limit):
    both are read from the Unicode tables and the interpreter. *)
Variable unicode_digit : char -> bool.
Variable int_other : str -> result Z.

(** [s.isdigit()] *)
Definition isdigit (s : str) : bool :=
  match s with
  | [] => false
  | _ :: _ =>
      forallb (fun c => if (c <? 128)%N then is_ascii_digit c else unicode_digit c) s
  end.

(** [int(s)] *)
Definition int_of (s : str) : result Z :=
  if all_ascii_digits s && (length s <=? 4300)
  then Ret (digits_value s)
  else int_other s.

End Unicode.

End PyText.

Import PyText.

(** ** bot/telegram_bot.py *)

Module TelegramBot.

Section Handlers.

Variable completion : nat -> str -> result str.
Variable render : str -> result node.
Variable pdf_text : str -> result str.

(** The users allowed to run the commands ([self.allowed_users]). *)
Variable allowed_users : list Z.

Definition not_authorized : str := lit "You are not authorized to use this command.".

(** The handler of /summ, on the sender's id and the command's arguments. *)
Definition summarize_article (user_id : Z) (args : list str) : M unit :=
  if negb (existsb (Z.eqb user_id) allowed_users)
  then reply_text not_authorized
  else
    match args with
    | [] => reply_text (lit "Please provide a URL after the command, e.g., /summ <URL>.")
    | arg0 :: _ =>
        if str_eqb (lower arg0) (lit "pdf")
        then reply_text (lit "Please upload the PDF file.")
        else
          let url := arg0 in
          let* extracted := extract_from_url render url in
          let article_text := fst extracted in
          let is_webpage := snd extracted in
          match article_text with
          | [] => ret tt
          | _ :: _ =>
              let* config := read_or_initialize_config in
              let* summary := summarize completion article_text is_webpage config in
              reply_html summary ;;
              try_except (blob_upload article_text) (fun _ => ret tt)
          end
    end.

(** The prompt /resp sends: the stored article, six line breaks, the user's
    words, two line breaks. *)
Definition respond_prompt (last_text user_resp : str) : str :=
  last_text ++ [nl; nl; nl; nl; nl; nl] ++ user_resp ++ [nl; nl].

(** The handler of /resp. *)
Definition respond_summary (user_id : Z) (args : list str) : M unit :=
  if negb (existsb (Z.eqb user_id) allowed_users)
  then reply_text not_authorized
  else
    match args with
    | [] =>
        reply_text
          (lit "Please provide a response for the last summary, e.g., /resp <RESPONSE>.")
    | _ :: _ =>
        let* config := read_or_initialize_config in
        let user_resp := join (lit " ") args in
        let* retrieved :=
          try_except
            (let* last_text := blob_download in ret (Some last_text))
            (fun _ =>
               reply_text
                 (lit "Failed to retrieve the last article. Please try summarizing a new article.") ;;
               ret None) in
        match retrieved with
        | None => ret tt
        | Some last_text =>
            let prompt := respond_prompt last_text user_resp in
            let* response := get_openai_response completion prompt in
            let* limit := subscript config "telegram_message_size_limit" in
            let* telegram_response := prepare_with response limit in
            reply_html telegram_response
        end
    end.

(** The handler of an uploaded file. *)
Definition summarize_pdf (user_id : Z) (uploaded : option document) : M unit :=
  if negb (existsb (Z.eqb user_id) allowed_users)
  then reply_text not_authorized
  else
    match uploaded with
    | None => reply_text (lit "Please upload a valid PDF file.")
    | Some doc =>
        if str_eqb (mime_type doc) (lit "application/pdf")
        then
          let* article_text := extract_from_pdf pdf_text doc in
          let* config := read_or_initialize_config in
          let* summary := summarize completion article_text false config in
          reply_html summary ;;
          try_except (blob_upload article_text) (fun _ => ret tt)
        else reply_text (lit "Please upload a valid PDF file.")
    end.

Variable unicode_digit : char -> bool.
Variable int_other : str -> result Z.

(** The handler of /set. *)
Definition set_config (user_id : Z) (args : list str) : M unit :=
  if negb (existsb (Z.eqb user_id) allowed_users)
  then reply_text not_authorized
  else
    if match args with [] => true | _ :: _ => false end
       || (length args <? 2) || (3 <? length args)
       || negb (existsb (str_eqb (nth 0 args [])) [lit "heb"; lit "eng"])
       || negb (isdigit unicode_digit (nth 1 args []))
    then
      reply_text
        (lit "Please provide valid configuration, i.e., /set <heb/eng> <word limit> [max chars].")
    else
      let lang := nth 0 args [] in
      let* words_limit := (fun w => (int_of int_other (nth 1 args []), w)) in
      let* telegram_message_size_limit :=
        if (length args =? 3) && isdigit unicode_digit (nth 2 args [])
        then (fun w => (int_of int_other (nth 2 args []), w))
        else ret TELEGRAM_MESSAGE_SIZE_LIMIT in
      let* updated := update_config lang words_limit telegram_message_size_limit in
      if updated
      then reply_text (lit "Configuration updated successfully.")
      else reply_text (lit "Failed to update configuration.").

(** The text /get replies with. *)
Definition config_msg (config : gmap string value) : str :=
  lit "language: " ++ to_str (dict_get config "lang") ++ [nl]
  ++ lit "summary words limit: " ++ to_str (dict_get config "words_limit") ++ [nl]
  ++ lit "telegram_msg_limit: "
  ++ to_str (dict_get config "telegram_message_size_limit") ++ [nl].

(** The handler of /get. *)
Definition get_config (user_id : Z) : M unit :=
  if negb (existsb (Z.eqb user_id) allowed_users)
  then reply_text not_authorized
  else
    let* config := read_or_initialize_config in
    if dict_truth config
    then reply_text (config_msg config)
    else reply_text (lit "Failed to retrieve configuration.").

End Handlers.

End TelegramBot.

Import TelegramBot.

(** The source kinds of the specification, and the flag the handlers pass to
    [summarize] for each: [extract_from_url] returns [True] for the whole
    page and [False] for an article container, and the PDF handler passes
    [False]. *)
Inductive sourceKind : Type := ArticleBody | FullPage | PdfDocument.

Definition is_webpage_of (k : sourceKind) : bool :=
  match k with
  | FullPage => true
  | ArticleBody | PdfDocument => false
  end.

Definition kind_of_flag (is_full_page : bool) : sourceKind :=
  if is_full_page then FullPage else ArticleBody.

(** ** aws/dynamodb_manager.py and aws/s3_manager.py *)

Module Aws.

(** How a call to an AWS service ends: it is served, it raises a
    [ClientError] (the service refused or failed), or it raises something
    else (no connection, bad parameters). *)
Inductive outcome : Type := Served | ClientError | OtherError.

(** The table of [DynamoDBManager] (its items by [config_id]), the object
    [Last_Article] of the bucket of [S3Manager] (its bytes), and how the
    coming calls end (an exhausted list: every call is served). *)
Record cloud : Type := Cloud {
  items : gmap (list N) (gmap string value);
  last_object : option (list N);
  coming : list outcome
}.

Definition A (T : Type) : Type := cloud -> result T * cloud.

(** One call: it takes the next outcome off the list. *)
Definition call (c : cloud) : outcome * cloud :=
  match coming c with
  | [] => (Served, c)
  | o :: rest => (o, Cloud (items c) (last_object c) rest)
  end.

Definition item_of (key v : str) : gmap string value :=
  <["config_id" := PyStr key]> (<["value" := PyStr v]> ∅).

(** [DynamoDBManager.get_item]: the [value] of the item, [None] when there
    is no such item, when it has no [value], and on a [ClientError]. *)
Definition get_item (key : str) : A value :=
  fun c =>
    match call c with
    | (Served, c') =>
        (Ret (match items c' !! key with
              | Some item => dict_get item "value"
              | None => dict_get ∅ "value"
              end), c')
    | (ClientError, c') => (Ret PyNone, c')
    | (OtherError, c') => (Raise (ServiceError "dynamodb"), c')
    end.

(** [DynamoDBManager.put_item] *)
Definition put_item (key v : str) : A bool :=
  fun c =>
    match call c with
    | (Served, c') =>
        (Ret true, Cloud (<[key := item_of key v]> (items c')) (last_object c') (coming c'))
    | (ClientError, c') => (Ret false, c')
    | (OtherError, c') => (Raise (ServiceError "dynamodb"), c')
    end.

Section Utf8.

(** [s.encode('utf-8')] and [b.decode('utf-8')], with the exception each
    raises on what it cannot convert. *)
Variable encode : str -> result (list N).
Variable decode : list N -> result str.

(** [S3Manager.store_article]: it returns nothing, served or not. *)
Definition store_article (article_text : str) : A unit :=
  fun c =>
    match encode article_text with
    | Raise e => (Raise e, c)
    | Ret body =>
        match call c with
        | (Served, c') => (Ret tt, Cloud (items c') (Some body) (coming c'))
        | (ClientError, c') => (Ret tt, c')
        | (OtherError, c') => (Raise (ServiceError "s3"), c')
        end
    end.

(** [S3Manager.retrieve_article]: a missing object is a [ClientError] of
    the service. *)
Definition retrieve_article : A str :=
  fun c =>
    match call c with
    | (Served, c') =>
        match last_object c' with
        | Some body => (decode body, c')
        | None => (Ret [], c')
        end
    | (ClientError, c') => (Ret [], c')
    | (OtherError, c') => (Raise (ServiceError "s3"), c')
    end.

End Utf8.

End Aws.

(** ** Notions of the specification *)

(** The literal tokens the formatter takes out in its first three steps. *)
Definition markup_tokens : list str :=
  map fst tags_to_replace ++ tags_to_remove ++ [lit "&"; lit "<"; lit ">"].

(** A markup-free text contains none of them. *)
Definition markup_free (x : str) : Prop :=
  Forall (fun token => occurs token x = false) markup_tokens.

(** A text without any of the characters &, <, >. *)
Definition plain_chars (s : str) : Prop :=
  Forall (fun c => c <> 38%N /\ c <> 60%N /\ c <> 62%N) s.

(** A text the five steps of the formatter leave alone: no markup character,
    no dash and no full stop followed by a space. *)
Definition settled (s : str) : Prop :=
  plain_chars s /\ occurs (lit "- ") s = false /\ occurs (lit ". ") s = false.

(** [b] is the first node below [soup], in document order, that matches [p]. *)
Definition first_in_document (p : node -> bool) (soup b : node) : Prop :=
  exists before after,
    descendants soup = before ++ b :: after
    /\ p b = true
    /\ Forall (fun m => p m = false) before.

(** No node below [soup] matches [p]. *)
Definition absent (p : node -> bool) (soup : node) : Prop :=
  Forall (fun m => p m = false) (descendants soup).

(** The three kinds of content container, in the order they are tried. *)
Definition is_article : node -> bool := has_name [lit "article"].
Definition is_article_content : node -> bool :=
  has_name_class (lit "div") (lit "article-content").
Definition is_main : node -> bool := has_name [lit "main"].

(** The text nodes of a subtree, in document order; a comment is none. *)
Fixpoint text_nodes (n : node) : list str :=
  match n with
  | NavigableString s => [s]
  | Comment _ => []
  | Tag _ _ children => flat_map text_nodes children
  end.

(** The text nodes below a node, the node itself not counted. *)
Definition text_nodes_below (n : node) : list str :=
  match n with
  | Tag _ _ children => flat_map text_nodes children
  | _ => []
  end.

(** [t] is [s] without its leading and trailing whitespace: what is taken
    off at each end is whitespace, what is left neither starts nor ends
    with whitespace, and nothing inside is touched. *)
Definition trimmed (s t : str) : Prop :=
  exists l r,
    s = l ++ t ++ r
    /\ Forall (fun c => is_space c = true) l
    /\ Forall (fun c => is_space c = true) r
    /\ (forall c t', t = c :: t' -> is_space c = false)
    /\ (forall c t', t = t' ++ [c] -> is_space c = false).

(** The pieces of a list of text nodes: each node trimmed, in the order of
    the nodes, those that trim to the empty string left out. *)
Inductive pieces_of : list str -> list str -> Prop :=
| pieces_done : pieces_of [] []
| pieces_skip s rest pieces :
    trimmed s [] -> pieces_of rest pieces -> pieces_of (s :: rest) pieces
| pieces_keep s t rest pieces :
    trimmed s t -> t <> [] -> pieces_of rest pieces ->
    pieces_of (s :: rest) (t :: pieces).

(** The pieces put one after the other, one space before each piece but
    the first. *)
Definition spaced (pieces : list str) : str :=
  match pieces with
  | [] => []
  | first :: others => first ++ flat_map (fun piece => 32%N :: piece) others
  end.

(** [text] is the text of a node: the pieces of the text nodes below it,
    joined by single spaces. *)
Definition is_text_of (n : node) (text : str) : Prop :=
  exists pieces, pieces_of (text_nodes_below n) pieces /\ text = spaced pieces.

(** The invariants of a configuration. *)
Definition valid_config (lang : str) (words_limit message_char_limit : Z) : Prop :=
  (lang = lit "eng" \/ lang = lit "heb")
  /\ (0 <= words_limit <= 800)%Z
  /\ (1 <= message_char_limit <= 4096)%Z.

(** [n] calls of [read_or_initialize_config] in a row, with what each returned. *)
Fixpoint read_times (n : nat) : M (list (gmap string value)) :=
  match n with
  | O => ret []
  | S k =>
      let* config := read_or_initialize_config in
      let* configs := read_times k in
      ret (config :: configs)
  end.


(** From [w] to [w']: at most [replies] messages were added to the chat and
    at most [requests] prompts were sent to the completion service, nothing
    was taken back from either, and the stored configuration is the same or
    a configuration inside the ranges. *)
Definition within (replies requests : nat) (w w' : world) : Prop :=
  (exists sent, outbox w' = outbox w ++ sent /\ length sent <= replies)
  /\ (exists asked, prompts w' = prompts w ++ asked /\ length asked <= requests)
  /\ (config_doc w' = config_doc w
      \/ exists lang wl ml,
           valid_config lang wl ml /\ config_doc w' = Some (config_of lang wl ml)).

(** A computation that stays within these bounds from every world. *)
Definition footprint {A} (replies requests : nat) (m : M A) : Prop :=
  forall w, within replies requests w (snd (m w)).

(** The optional third argument of /set and the message limit it stands
    for: none, or one that is not a numeral, stands for the default; a
    numeral in ASCII digits stands for its value. *)
Definition limit_argument (unicode_digit : char -> bool) (rest : list str) (ml : Z)
  : Prop :=
  (rest = [] /\ ml = 4096%Z)
  \/ exists a,
       rest = [a]
       /\ ((isdigit unicode_digit a = false /\ ml = 4096%Z)
           \/ (all_ascii_digits a = true /\ length a <= 4300 /\ ml = digits_value a)).

(** * Properties *)

(** Membership in a list given by its elements. *)
Ltac in_list := solve [cbn; repeat first [left; reflexivity | right]].

(** ** Sample runs *)

Example format_spec_sample :
  prepare_message_for_telegram (lit "<p>Hello</p><li>first</li><li>second</li>") 4096
  = lit "Hello" ++ [nl; nl] ++ lit "-  first" ++ [nl; nl] ++ lit "-  second".
Proof. vm_compute. reflexivity. Qed.

Example replace_empty_old : replace [] (lit "-") (lit "abc") = lit "-a-b-c-".
Proof. reflexivity. Qed.

Example replace_overlap : replace (lit "aa") (lit "b") (lit "aaaaa") = lit "bba".
Proof. reflexivity. Qed.

Example str_of_int_samples :
  str_of_int 300 = lit "300" /\ str_of_int 0 = lit "0" /\ str_of_int (-5) = lit "-5".
Proof. vm_compute. auto. Qed.

(** ** Strings *)

Section StringFacts.

Lemma char_eqb_eq (a b : char) : char_eqb a b = true <-> a = b.
Proof. apply N.eqb_eq. Qed.

Lemma char_eqb_refl (a : char) : char_eqb a a = true.
Proof. apply N.eqb_refl. Qed.

Lemma starts_with_In (p s : str) :
  starts_with p s = true -> forall c, In c p -> In c s.
Proof.
  revert s. induction p as [|a p IH]; intros s H c Hc; [destruct Hc|].
  destruct s as [|b s]; [discriminate|].
  simpl in H. apply andb_true_iff in H as [Hab Hps].
  apply char_eqb_eq in Hab. subst b.
  destruct Hc as [->|Hc]; [left; reflexivity|right; eauto].
Qed.

Lemma occurs_In (p s : str) c :
  In c p -> occurs p s = true -> In c s.
Proof.
  intros Hc. induction s as [|b s IH]; simpl; intros H.
  - apply orb_true_iff in H as [H|H]; [|discriminate].
    destruct p; [destruct Hc|discriminate].
  - apply orb_true_iff in H as [H|H].
    + exact (starts_with_In _ _ H c Hc).
    + right. auto.
Qed.

Lemma starts_with_app (p t : str) : starts_with p (p ++ t) = true.
Proof. induction p; simpl; [reflexivity|]. now rewrite char_eqb_refl. Qed.

Lemma starts_with_firstn (p s : str) m :
  starts_with p (firstn m s) = true -> starts_with p s = true.
Proof.
  revert s m. induction p as [|a p IH]; intros s m; [reflexivity|].
  destruct m, s; simpl; try discriminate.
  intros H. apply andb_true_iff in H as [-> H]. simpl. eauto.
Qed.

Lemma occurs_firstn (p s : str) m :
  occurs p (firstn m s) = true -> occurs p s = true.
Proof.
  revert m. induction s as [|b s IH]; intros m.
  - now rewrite firstn_nil.
  - destruct m.
    + simpl. intros H. apply orb_true_iff in H as [H|H]; [|discriminate].
      destruct p; [reflexivity|discriminate].
    + cbn [firstn occurs]. intros H. apply orb_true_iff in H as [H|H].
      * apply (starts_with_firstn p (b :: s) (S m)) in H. now rewrite H.
      * apply IH in H. rewrite H. apply orb_true_r.
Qed.

(** A replacement whose pattern does not occur changes nothing. *)
Lemma replace_from_absent (old new s : str) :
  occurs old s = false -> replace_from old new 0 s = s.
Proof.
  induction s as [|c s IH]; [reflexivity|].
  cbn [occurs replace_from]. intros H.
  apply orb_false_iff in H as [H1 H2]. rewrite H1. f_equal. auto.
Qed.

Lemma replace_absent (old new s : str) :
  occurs old s = false -> replace old new s = s.
Proof.
  destruct old as [|a old].
  - destruct s; discriminate.
  - apply replace_from_absent.
Qed.

(** A replacement by a text at least as long as the pattern does not shorten. *)
Lemma replace_from_length_ge (old new : str) :
  1 <= length old <= length new ->
  forall s k, length (skipn k s) <= length (replace_from old new k s).
Proof.
  intros Hlen. induction s as [|c s IH]; intros k.
  - rewrite skipn_nil. simpl. lia.
  - destruct k as [|k]; cbn [skipn replace_from]; [|apply IH].
    destruct (starts_with old (c :: s)).
    + rewrite length_app. specialize (IH (length old - 1)).
      rewrite length_skipn in IH. simpl. lia.
    + specialize (IH 0). rewrite skipn_O in IH. simpl. lia.
Qed.

Lemma replace_length_ge (old new s : str) :
  1 <= length old <= length new -> length s <= length (replace old new s).
Proof.
  intros H. destruct old as [|a old]; [simpl in H; lia|].
  exact (replace_from_length_ge (a :: old) new H s 0).
Qed.

(** Every character of the result comes from the text or from the replacement. *)
Lemma replace_from_Forall (P : char -> Prop) (old new : str) :
  Forall P new ->
  forall s k, Forall P s -> Forall P (replace_from old new k s).
Proof.
  intros Hnew. induction s as [|c s IH]; intros k Hs; [constructor|].
  inversion Hs as [|? ? Hc Hs']; subst.
  destruct k as [|k]; cbn [replace_from]; [|auto].
  destruct (starts_with old (c :: s)).
  - apply Forall_app; auto.
  - constructor; auto.
Qed.

(** A replacement that keeps the first character keeps the head of the text. *)
Lemma replace_from_head (o : char) (old' new' : str) :
  forall s k,
    hd_error (replace_from (o :: old') (o :: new') k s) = hd_error (skipn k s).
Proof.
  induction s as [|c s IH]; intros k; [now destruct k|].
  destruct k as [|k]; cbn [skipn replace_from]; [|apply IH].
  destruct (starts_with (o :: old') (c :: s)) eqn:E; [|reflexivity].
  simpl in E. apply andb_true_iff in E as [E _]. apply char_eqb_eq in E.
  now subst.
Qed.

End StringFacts.

(** ** The formatter *)

Section FormatterFacts.

(** Occurrences of a two-character pattern. *)
Lemma occurs_pair_cons (a b c : char) (s : str) :
  occurs [a; b] (c :: s) =
  (char_eqb a c && match s with [] => false | c2 :: _ => char_eqb b c2 end)
  || occurs [a; b] s.
Proof. simpl. destruct s; simpl; rewrite ?andb_true_r; reflexivity. Qed.

Lemma occurs_pair_tail (a b c : char) (s : str) :
  occurs [a; b] s = true -> occurs [a; b] (c :: s) = true.
Proof. intros H. rewrite occurs_pair_cons, H. apply orb_true_r. Qed.

(** Appending the ellipsis creates no character followed by a space. *)
Lemma occurs_pair_dots (a : char) (s : str) :
  occurs [a; 32%N] (s ++ lit "...") = occurs [a; 32%N] s.
Proof.
  induction s as [|c s IH].
  - cbn. now rewrite !andb_false_r.
  - cbn [app]. rewrite !occurs_pair_cons, IH. f_equal. f_equal.
    destruct s; reflexivity.
Qed.

(** The sentence-break step, [replace(". ", ".\n")]: afterwards a character
    other than the line break is followed by a space only where it was
    before, and a full stop never is. *)
Lemma breaks_pairs (a : char) :
  a <> nl ->
  forall (s : str) k,
    occurs [a; 32%N] (replace_from [46%N; 32%N] [46%N; nl] k s) = true ->
    occurs [a; 32%N] (skipn k s) = true /\ a <> 46%N.
Proof.
  intros Ha. induction s as [|c s IH]; intros k.
  - destruct k; cbn; discriminate.
  - destruct k as [|k]; cbn [skipn replace_from]; [|apply IH].
    destruct (starts_with [46%N; 32%N] (c :: s)) eqn:E.
    + cbn [app length Nat.sub]. intros H. rewrite !occurs_pair_cons in H.
      assert (char_eqb a nl = false) as Hnl by (apply N.eqb_neq; exact Ha).
      rewrite Hnl in H. change (char_eqb 32 nl) with false in H.
      rewrite andb_false_r in H. cbn [andb orb] in H.
      apply IH in H as [H Hd]. split; [|exact Hd].
      apply occurs_pair_tail.
      destruct s as [|c2 s]; [cbn in H; discriminate|].
      cbn [skipn] in H. rewrite skipn_O in H. now apply occurs_pair_tail.
    + intros H. rewrite occurs_pair_cons in H. apply orb_true_iff in H as [H|H].
      * apply andb_true_iff in H as [Hac Hsp].
        pose proof (replace_from_head 46%N [32%N] [nl] s 0) as Hhd.
        rewrite skipn_O in Hhd.
        destruct (replace_from [46%N; 32%N] [46%N; nl] 0 s) as [|c2 r];
          [discriminate|].
        destruct s as [|c3 s]; [discriminate|].
        cbn in Hhd. injection Hhd as <-.
        apply char_eqb_eq in Hac. subst c.
        split.
        -- rewrite occurs_pair_cons, char_eqb_refl, Hsp. reflexivity.
        -- intros ->. cbn [starts_with] in E.
           rewrite Hsp, char_eqb_refl in E. discriminate.
      * apply IH in H as [H Hd]. rewrite skipn_O in H.
        split; [now apply occurs_pair_tail|exact Hd].
Qed.

Lemma occurs_single (c : char) (s : str) : occurs [c] s = false -> ~ In c s.
Proof.
  induction s as [|b s IH]; intros H; [intros []|].
  cbn in H. apply orb_false_iff in H as [H1 H2].
  rewrite andb_true_r in H1. apply N.eqb_neq in H1.
  intros [Hb|Hin]; [congruence|]. now apply IH.
Qed.

Lemma markup_free_plain (x : str) : markup_free x -> plain_chars x.
Proof.
  intros H. unfold markup_free in H. rewrite List.Forall_forall in H.
  assert (occurs [38%N] x = false) as Ha by (apply H; in_list).
  assert (occurs [60%N] x = false) as Hl by (apply H; in_list).
  assert (occurs [62%N] x = false) as Hg by (apply H; in_list).
  apply occurs_single in Ha, Hl, Hg.
  apply List.Forall_forall. intros c Hc. repeat split; intros ->; tauto.
Qed.

Lemma plain_markup_free (x : str) : plain_chars x -> markup_free x.
Proof.
  intros H. unfold plain_chars in H. rewrite List.Forall_forall in H.
  assert (forall token c, In c token -> (c = 38 \/ c = 60 \/ c = 62)%N ->
                          occurs token x = false) as Hno.
  { intros token c Hin Hc. destruct (occurs token x) eqn:E; [|reflexivity].
    apply (occurs_In _ _ c Hin) in E. apply H in E. lia. }
  unfold markup_free, markup_tokens. cbn [tags_to_replace tags_to_remove map fst app].
  repeat (apply List.Forall_cons; [first
    [ apply (Hno _ 60%N); [in_list|tauto]
    | apply (Hno _ 38%N); [in_list|tauto]
    | apply (Hno _ 62%N); [in_list|tauto] ]|]).
  apply List.Forall_nil.
Qed.

(** On a markup-free text the first three steps change nothing. *)
Lemma clean_markup_free (x : str) :
  markup_free x ->
  clean_markup x =
  replace (lit ". ") (lit "." ++ [nl]) (replace (lit "- ") (nl :: lit "-  ") x).
Proof.
  intros H. unfold markup_free, markup_tokens in H.
  cbn [tags_to_replace tags_to_remove map fst app] in H.
  repeat match goal with
         | H : Forall _ (_ :: _) |- _ => apply Forall_cons_iff in H as [? H]
         end.
  unfold clean_markup. cbn [tags_to_replace tags_to_remove map fold_left fst snd].
  repeat match goal with
         | H : occurs ?t x = false |- context [replace ?t ?n x] =>
             rewrite (replace_absent t n x H)
         end.
  reflexivity.
Qed.

(** The steps before the truncation never shorten a markup-free text. *)
Lemma clean_markup_length_ge (x : str) :
  markup_free x -> length x <= length (clean_markup x).
Proof.
  intros H. rewrite (clean_markup_free x H).
  etransitivity; [|apply replace_length_ge; cbn; lia].
  apply replace_length_ge. cbn. lia.
Qed.

Lemma clean_markup_settled (s : str) : settled s -> clean_markup s = s.
Proof.
  intros (Hp & Hdash & Hdot).
  rewrite (clean_markup_free s (plain_markup_free s Hp)).
  rewrite (replace_absent _ _ s Hdash). exact (replace_absent _ _ s Hdot).
Qed.

Lemma prepare_keep (s : str) (n : Z) :
  (Z.of_nat (length (clean_markup s)) <= n)%Z ->
  prepare_message_for_telegram s n = clean_markup s.
Proof.
  intros H. unfold prepare_message_for_telegram.
  destruct (Z.ltb_spec n (Z.of_nat (length (clean_markup s)))); [lia|reflexivity].
Qed.

Lemma prepare_cut (s : str) (n : Z) :
  (3 <= n < Z.of_nat (length (clean_markup s)))%Z ->
  prepare_message_for_telegram s n
  = firstn (Z.to_nat (n - 3)) (clean_markup s) ++ lit "..."
  /\ Z.of_nat (length (prepare_message_for_telegram s n)) = n.
Proof.
  intros H. unfold prepare_message_for_telegram, slice_to.
  destruct (Z.ltb_spec n (Z.of_nat (length (clean_markup s)))); [|lia].
  destruct (Z.leb_spec 0 (n - 3)); [|lia].
  split; [reflexivity|].
  rewrite length_app, length_firstn. cbn [lit length list_ascii_of_string map]. lia.
Qed.

(** From three characters on, the budget is respected. *)
Lemma prepare_length_le (s : str) (n : Z) :
  (3 <= n)%Z -> (Z.of_nat (length (prepare_message_for_telegram s n)) <= n)%Z.
Proof.
  intros H.
  destruct (Z.lt_ge_cases n (Z.of_nat (length (clean_markup s)))) as [Hlt|Hge].
  - destruct (prepare_cut s n) as [_ ->]; lia.
  - rewrite prepare_keep; lia.
Qed.

(** A text longer than the budget after the five steps comes back with
    exactly [n] characters, the last three being the ellipsis. *)
Lemma prepare_cut_ends (s : str) (n : Z) :
  (3 <= n < Z.of_nat (length (clean_markup s)))%Z ->
  Z.of_nat (length (prepare_message_for_telegram s n)) = n
  /\ ends_with (lit "...") (prepare_message_for_telegram s n) = true.
Proof.
  intros H. destruct (prepare_cut s n H) as [E L]. split; [exact L|].
  rewrite E. unfold ends_with. rewrite rev_app_distr. apply starts_with_app.
Qed.

Lemma prepare_settled (s : str) (n : Z) :
  settled s -> (Z.of_nat (length s) <= n)%Z -> prepare_message_for_telegram s n = s.
Proof.
  intros Hs Hn. pose proof (clean_markup_settled s Hs) as E.
  rewrite prepare_keep; rewrite E; [reflexivity|exact Hn].
Qed.

(** What the five steps produce from a markup-free text without a dash
    bullet is settled, and stays so when cut and closed by the ellipsis. *)
Lemma clean_markup_settles (x : str) :
  markup_free x -> occurs (lit "- ") x = false -> settled (clean_markup x).
Proof.
  intros Hfree Hdash. rewrite (clean_markup_free x Hfree).
  rewrite (replace_absent _ _ x Hdash).
  change (replace (lit ". ") (lit "." ++ [nl]) x)
    with (replace_from [46%N; 32%N] [46%N; nl] 0 x).
  repeat split.
  - apply replace_from_Forall; [|exact (markup_free_plain x Hfree)].
    repeat constructor; discriminate.
  - apply not_true_is_false. intros E.
    apply (breaks_pairs 45%N) in E as [E _]; [|discriminate].
    rewrite skipn_O in E. change [45%N; 32%N] with (lit "- ") in E. congruence.
  - apply not_true_is_false. intros E.
    apply (breaks_pairs 46%N) in E as [_ E]; [|discriminate]. congruence.
Qed.

Lemma settled_cut (s : str) (m : nat) :
  settled s -> settled (firstn m s ++ lit "...").
Proof.
  intros (Hp & Hdash & Hdot). repeat split.
  - apply Forall_app. split; [now apply Forall_take|].
    repeat constructor; discriminate.
  - change (lit "- ") with [45%N; 32%N] in *. rewrite occurs_pair_dots.
    apply not_true_is_false. intros E. apply occurs_firstn in E. congruence.
  - change (lit ". ") with [46%N; 32%N] in *. rewrite occurs_pair_dots.
    apply not_true_is_false. intros E. apply occurs_firstn in E. congruence.
Qed.

End FormatterFacts.

(** ** Claims about the formatter *)

Section FormatterClaims.

(** C1 (the code departs from the claim).  With a budget of one character
    the cut [summary[:max_chars-3]] has a negative bound, which drops the
    last two characters only: the four-character text abcd comes back as
    ab followed by the ellipsis, five characters for a budget of one. *)
Theorem format_budget_one_overrun :
  prepare_message_for_telegram (lit "abcd") 1 = lit "ab..."
  /\ (1 < Z.of_nat (length (prepare_message_for_telegram (lit "abcd") 1)))%Z.
Proof. split; [reflexivity|vm_compute; reflexivity]. Qed.

(** X1.  From three characters on the budget holds: the result has at most
    [max_chars] characters, and a longer text is cut to its first
    [max_chars - 3] characters followed by the ellipsis. *)
Theorem format_budget_from_three (summary : str) (max_chars : Z) :
  (3 <= max_chars)%Z ->
  (Z.of_nat (length (prepare_message_for_telegram summary max_chars)) <= max_chars)%Z
  /\ ((max_chars < Z.of_nat (length (clean_markup summary)))%Z ->
      prepare_message_for_telegram summary max_chars
      = firstn (Z.to_nat (max_chars - 3)) (clean_markup summary) ++ lit "...").
Proof.
  intros H. split; [now apply prepare_length_le|].
  intros Hlt. now destruct (prepare_cut summary max_chars).
Qed.

Lemma format_budget_from_three_witness :
  (Z.of_nat (length (prepare_message_for_telegram (lit "<p>Hello, world</p>") 3)) <= 3)%Z
  /\ ((3 < Z.of_nat (length (clean_markup (lit "<p>Hello, world</p>"))))%Z ->
      prepare_message_for_telegram (lit "<p>Hello, world</p>") 3
      = firstn (Z.to_nat (3 - 3)) (clean_markup (lit "<p>Hello, world</p>")) ++ lit "...").
Proof. apply (format_budget_from_three (lit "<p>Hello, world</p>") 3). lia. Defined.

(** C7, as amended.  With a budget of ten characters, every input whose
    text after the five rewriting steps is longer than ten characters is
    returned as exactly ten characters ending with the ellipsis. *)
Theorem format_truncation_ten (input : str) :
  10 < length (clean_markup input) ->
  length (prepare_message_for_telegram input 10) = 10
  /\ ends_with (lit "...") (prepare_message_for_telegram input 10) = true.
Proof.
  intros H. destruct (prepare_cut_ends input 10) as [L E]; [lia|].
  split; [lia|exact E].
Qed.

Lemma format_truncation_ten_witness :
  10 < length (clean_markup (lit "Hello, world"))
  /\ length (prepare_message_for_telegram (lit "Hello, world") 10) = 10
  /\ ends_with (lit "...") (prepare_message_for_telegram (lit "Hello, world") 10) = true.
Proof.
  split; [vm_compute; lia|].
  apply (format_truncation_ten (lit "Hello, world")). vm_compute. lia.
Defined.

(** C7, as stated, fails: a twelve-character input made of two tags is
    emptied by the tag removal, so nothing is cut and nothing ends with the
    ellipsis. *)
Lemma format_truncation_ten_counterexample :
  10 < length (lit "<html><html>")
  /\ prepare_message_for_telegram (lit "<html><html>") 10 = [].
Proof. split; [vm_compute; lia|reflexivity]. Qed.

(** Markup-free inputs longer than ten characters are among the inputs of
    [format_truncation_ten]. *)
Lemma format_truncation_ten_markup_free (input : str) :
  markup_free input -> 10 < length input ->
  length (prepare_message_for_telegram input 10) = 10
  /\ ends_with (lit "...") (prepare_message_for_telegram input 10) = true.
Proof.
  intros Hfree Hlen. pose proof (clean_markup_length_ge input Hfree) as Hge.
  destruct (prepare_cut_ends input 10) as [L E]; [lia|].
  split; [lia|exact E].
Qed.

(** C8, as amended.  On a markup-free text in which no dash is followed by
    a space, and with a budget of at least three characters, formatting
    twice is formatting once. *)
Theorem format_idempotent (x : str) (n : Z) :
  markup_free x -> occurs (lit "- ") x = false -> (3 <= n)%Z ->
  prepare_message_for_telegram (prepare_message_for_telegram x n) n
  = prepare_message_for_telegram x n.
Proof.
  intros Hfree Hdash Hn.
  pose proof (clean_markup_settles x Hfree Hdash) as Hset.
  destruct (Z.lt_ge_cases n (Z.of_nat (length (clean_markup x)))) as [Hlt|Hge].
  - destruct (prepare_cut x n) as [E L]; [lia|].
    apply prepare_settled; [|lia].
    rewrite E. now apply settled_cut.
  - rewrite (prepare_keep x n) by lia.
    apply prepare_settled; [exact Hset|lia].
Qed.

Lemma format_idempotent_witness :
  let x := lit "One. Two. Three" in
  prepare_message_for_telegram (prepare_message_for_telegram x 9) 9
  = prepare_message_for_telegram x 9.
Proof.
  apply (format_idempotent (lit "One. Two. Three") 9).
  - repeat constructor.
  - reflexivity.
  - lia.
Defined.

(** C8, as stated, fails: the text of a dash bullet is markup-free, and each
    pass puts one more line break before the dash and one more space after it. *)
Lemma format_idempotent_counterexample :
  markup_free (lit "- a")
  /\ prepare_message_for_telegram (lit "- a") 100 = nl :: lit "-  a"
  /\ prepare_message_for_telegram (prepare_message_for_telegram (lit "- a") 100) 100
     = nl :: nl :: lit "-   a".
Proof. split; [repeat constructor|split; reflexivity]. Qed.

(** Below three characters the cut is not stable either. *)
Example format_twice_budget_one :
  prepare_message_for_telegram (lit "abcd") 1 = lit "ab..."
  /\ prepare_message_for_telegram (lit "ab...") 1 = lit "ab....".
Proof. split; reflexivity. Qed.

End FormatterClaims.

(** ** The configuration store *)

Section ConfigFacts.

Lemma str_eqb_eq (s t : str) : str_eqb s t = true <-> s = t.
Proof.
  revert t. induction s as [|a s IH]; intros [|b t]; simpl; split;
    try discriminate; try reflexivity.
  - intros H. apply andb_true_iff in H as [Hab Hst].
    apply char_eqb_eq in Hab. apply IH in Hst. congruence.
  - intros H. injection H as -> ->. rewrite char_eqb_refl. now apply IH.
Qed.

Lemma language_check (lang : str) :
  existsb (str_eqb lang) [lit "eng"; lit "heb"] = true
  <-> lang = lit "eng" \/ lang = lit "heb".
Proof.
  cbn [existsb]. rewrite orb_false_r, orb_true_iff, !str_eqb_eq. reflexivity.
Qed.

Lemma world_eta (w : world) : set_faults (faults w) w = w.
Proof. now destruct w. Qed.

Lemma drain_0 (w : world) : drain 0 w = w.
Proof. unfold drain. rewrite skipn_O. apply world_eta. Qed.

Lemma drain_drain (j k : nat) (w : world) : drain k (drain j w) = drain (j + k) w.
Proof.
  unfold drain, set_faults. cbn. f_equal.
  apply drop_drop.
Qed.

Lemma healthy_drain (k : nat) (w : world) : healthy w -> healthy (drain k w).
Proof. unfold healthy, drain. cbn. apply Forall_drop. Qed.

Lemma healthy_set_config_doc d (w : world) : healthy w -> healthy (set_config_doc d w).
Proof. exact (fun H => H). Qed.

Lemma healthy_not_fails (w : world) : healthy w -> storage_fails w = false.
Proof.
  unfold healthy, storage_fails. destruct (faults w) as [|[] rest]; try reflexivity.
  intros H. inversion H. discriminate.
Qed.

(** A storage call that the schedule lets through. *)
Lemma cloud_call_ok (what : string) (w : world) :
  storage_fails w = false -> cloud_call what w = (Ret tt, drain 1 w).
Proof.
  unfold storage_fails, cloud_call, drain.
  destruct (faults w) as [|[] rest] eqn:E; try discriminate; intros _.
  - cbn. rewrite <- E. now rewrite world_eta.
  - reflexivity.
Qed.

Lemma cloud_call_fails (what : string) (w : world) :
  storage_fails w = true ->
  cloud_call what w = (Raise (ServiceError what), drain 1 w).
Proof.
  unfold storage_fails, cloud_call, drain.
  destruct (faults w) as [|[] rest]; try discriminate. reflexivity.
Qed.

Lemma doc_get_ok (w : world) :
  storage_fails w = false -> doc_get w = (Ret (config_doc w), drain 1 w).
Proof. intros H. unfold doc_get, bind. now rewrite (cloud_call_ok _ w H). Qed.

Lemma doc_set_ok d (w : world) :
  storage_fails w = false ->
  doc_set d w = (Ret tt, set_config_doc (Some d) (drain 1 w)).
Proof. intros H. unfold doc_set, bind. now rewrite (cloud_call_ok _ w H). Qed.

Lemma doc_set_fails d (w : world) :
  storage_fails w = true ->
  doc_set d w = (Raise (ServiceError "firestore"), drain 1 w).
Proof. intros H. unfold doc_set, bind. now rewrite (cloud_call_fails _ w H). Qed.

(** The three checks of [update_config] pass exactly on the valid inputs. *)
Lemma update_config_valid (lang : str) (wl ml : Z) (w : world) :
  valid_config lang wl ml ->
  update_config lang wl ml w
  = try_except (doc_set (config_of lang wl ml) ;; ret true) (fun _ => ret false) w.
Proof.
  intros (Hl & Hw & Hm). unfold update_config.
  apply language_check in Hl. rewrite Hl. cbn [negb isinstance_int orb].
  destruct (Z.ltb_spec wl 0); [lia|]. destruct (Z.ltb_spec 800 wl); [lia|].
  destruct (Z.ltb_spec ml 1); [lia|]. destruct (Z.ltb_spec 4096 ml); [lia|].
  reflexivity.
Qed.

Lemma update_config_invalid (lang : str) (wl ml : Z) (w : world) :
  ~ valid_config lang wl ml ->
  exists msg, update_config lang wl ml w = (Raise (ValueError msg), w).
Proof.
  intros Hbad. unfold update_config.
  destruct (existsb (str_eqb lang) [lit "eng"; lit "heb"]) eqn:El;
    cbn [negb isinstance_int orb]; [|eexists; reflexivity].
  apply language_check in El.
  destruct (Z.ltb_spec wl 0); [eexists; reflexivity|].
  destruct (Z.ltb_spec 800 wl); [eexists; reflexivity|].
  destruct (Z.ltb_spec ml 1); [eexists; reflexivity|].
  destruct (Z.ltb_spec 4096 ml); [eexists; reflexivity|].
  exfalso. apply Hbad. unfold valid_config. repeat split; auto; lia.
Qed.

Lemma valid_config_dec (lang : str) (wl ml : Z) :
  valid_config lang wl ml \/ ~ valid_config lang wl ml.
Proof.
  unfold valid_config.
  destruct (existsb (str_eqb lang) [lit "eng"; lit "heb"]) eqn:El.
  - apply language_check in El.
    destruct (Z_le_dec 0 wl), (Z_le_dec wl 800), (Z_le_dec 1 ml), (Z_le_dec ml 4096);
      first [left; repeat split; assumption | right; lia].
  - right. intros (Hl & _). apply language_check in Hl. congruence.
Qed.

Lemma update_config_stored (lang : str) (wl ml : Z) (w : world) :
  valid_config lang wl ml -> storage_fails w = false ->
  update_config lang wl ml w
  = (Ret true, set_config_doc (Some (config_of lang wl ml)) (drain 1 w)).
Proof.
  intros Hv Hs. rewrite (update_config_valid _ _ _ w Hv).
  unfold try_except, bind. now rewrite (doc_set_ok _ w Hs).
Qed.

Lemma update_config_soft_failure (lang : str) (wl ml : Z) (w : world) :
  valid_config lang wl ml -> storage_fails w = true ->
  update_config lang wl ml w = (Ret false, drain 1 w).
Proof.
  intros Hv Hs. rewrite (update_config_valid _ _ _ w Hv).
  unfold try_except, bind. now rewrite (doc_set_fails _ w Hs).
Qed.

(** Reading an existing document returns it and leaves it in place. *)
Lemma read_existing d (w : world) :
  config_doc w = Some d -> storage_fails w = false ->
  read_or_initialize_config w = (Ret d, drain 1 w).
Proof.
  intros Hd Hs. unfold read_or_initialize_config, bind.
  now rewrite (doc_get_ok w Hs), Hd.
Qed.

Lemma read_missing (w : world) :
  config_doc w = None -> healthy w ->
  read_or_initialize_config w
  = (Ret default_config, set_config_doc (Some default_config) (drain 2 w)).
Proof.
  intros Hd Hh. unfold read_or_initialize_config, bind.
  rewrite (doc_get_ok w (healthy_not_fails w Hh)), Hd.
  rewrite doc_set_ok by (apply healthy_not_fails, healthy_drain, Hh).
  now rewrite drain_drain.
Qed.

Lemma read_times_existing d (n : nat) :
  forall w, config_doc w = Some d -> healthy w ->
            read_times n w = (Ret (repeat d n), drain n w).
Proof.
  induction n as [|n IH]; intros w Hd Hh.
  - cbn. unfold ret. now rewrite drain_0.
  - cbn [read_times]. unfold bind at 1.
    rewrite (read_existing d w Hd (healthy_not_fails w Hh)).
    unfold bind at 1. rewrite IH; [|exact Hd|now apply healthy_drain].
    unfold ret. now rewrite drain_drain.
Qed.

End ConfigFacts.

(** ** Claims about the configuration store *)

Section ConfigClaims.

(** The document [update_config] writes has the three fields and no other. *)
Lemma config_of_fields (lang : str) (wl ml : Z) :
  config_of lang wl ml !! "lang" = Some (PyStr lang)
  /\ config_of lang wl ml !! "words_limit" = Some (PyInt wl)
  /\ config_of lang wl ml !! "telegram_message_size_limit" = Some (PyInt ml)
  /\ size (config_of lang wl ml) = 3.
Proof. repeat split; reflexivity. Qed.

(** C2.  [update_config] raises ValueError and leaves the world as it is on
    every input outside the ranges (so for a word limit of 801); on an input
    inside them, when the storage call goes through, it returns true and the
    stored document holds the language under [lang], the word limit under
    [words_limit], the message limit under [telegram_message_size_limit],
    and no other field; and it returns false exactly when the input is
    inside the ranges and the storage call fails. *)
Theorem update_config_contract (lang : str) (wl ml : Z) (w : world) :
  (~ valid_config lang wl ml ->
   exists msg, update_config lang wl ml w = (Raise (ValueError msg), w))
  /\ (exists msg, update_config lang 801 ml w = (Raise (ValueError msg), w))
  /\ (valid_config lang wl ml -> storage_fails w = false ->
      exists w' d,
        update_config lang wl ml w = (Ret true, w')
        /\ config_doc w' = Some d
        /\ d !! "lang" = Some (PyStr lang)
        /\ d !! "words_limit" = Some (PyInt wl)
        /\ d !! "telegram_message_size_limit" = Some (PyInt ml)
        /\ size d = 3)
  /\ (fst (update_config lang wl ml w) = Ret false
      <-> valid_config lang wl ml /\ storage_fails w = true).
Proof.
  split; [apply update_config_invalid|].
  split; [apply update_config_invalid; unfold valid_config; lia|].
  split.
  - intros Hv Hs. eexists. exists (config_of lang wl ml).
    split; [apply update_config_stored; assumption|].
    split; [reflexivity|]. apply config_of_fields.
  - split.
    + intros H. destruct (valid_config_dec lang wl ml) as [Hv|Hbad].
      * split; [exact Hv|]. destruct (storage_fails w) eqn:Hs; [reflexivity|].
        rewrite (update_config_stored _ _ _ w Hv Hs) in H. discriminate.
      * destruct (update_config_invalid lang wl ml w Hbad) as [msg E].
        rewrite E in H. discriminate.
    + intros [Hv Hs]. now rewrite (update_config_soft_failure _ _ _ w Hv Hs).
Qed.

Lemma update_config_contract_witness :
  (exists msg,
     update_config [104; 101; 98]%N 801 2000 (World None None [] [] [])
     = (Raise (ValueError msg), World None None [] [] []))
  /\ exists w' d,
       update_config [104; 101; 98]%N 120 2000 (World None None [] [] []) = (Ret true, w')
       /\ config_doc w' = Some d
       /\ d !! "lang" = Some (PyStr [104; 101; 98]%N)
       /\ d !! "words_limit" = Some (PyInt 120)
       /\ d !! "telegram_message_size_limit" = Some (PyInt 2000)
       /\ size d = 3.
Proof.
  pose proof (update_config_contract [104; 101; 98]%N 120 2000 (World None None [] [] []))
    as (_ & Hbad & Hgood & _).
  split; [exact Hbad|]. apply Hgood; [|reflexivity].
  unfold valid_config. split; [right; reflexivity|lia].
Defined.

(** C5.  For every configuration inside the ranges and a working store,
    [update_config] succeeds, the document then holds exactly the three
    values, and any number of later calls of [read_or_initialize_config]
    each return them, the document staying as it is. *)
Theorem config_round_trip (lang : str) (wl ml : Z) (w : world) (n : nat) :
  valid_config lang wl ml -> healthy w ->
  exists w1 w2 d,
    update_config lang wl ml w = (Ret true, w1)
    /\ config_doc w1 = Some d
    /\ d !! "lang" = Some (PyStr lang)
    /\ d !! "words_limit" = Some (PyInt wl)
    /\ d !! "telegram_message_size_limit" = Some (PyInt ml)
    /\ size d = 3
    /\ read_times n w1 = (Ret (repeat d n), w2)
    /\ config_doc w2 = Some d.
Proof.
  intros Hv Hh.
  exists (set_config_doc (Some (config_of lang wl ml)) (drain 1 w)).
  exists (drain n (set_config_doc (Some (config_of lang wl ml)) (drain 1 w))).
  exists (config_of lang wl ml).
  split; [apply update_config_stored; [exact Hv|now apply healthy_not_fails]|].
  split; [reflexivity|].
  destruct (config_of_fields lang wl ml) as (F1 & F2 & F3 & F4).
  repeat (split; [assumption|]).
  split; [|reflexivity].
  apply read_times_existing; [reflexivity|].
  apply healthy_set_config_doc, healthy_drain, Hh.
Qed.

Lemma config_round_trip_witness :
  exists w1 w2 d,
    update_config (lit "heb") 120 2000 (World None None [] [] [false; false]) = (Ret true, w1)
    /\ config_doc w1 = Some d
    /\ d !! "lang" = Some (PyStr (lit "heb"))
    /\ d !! "words_limit" = Some (PyInt 120)
    /\ d !! "telegram_message_size_limit" = Some (PyInt 2000)
    /\ size d = 3
    /\ read_times 3 w1 = (Ret (repeat d 3), w2)
    /\ config_doc w2 = Some d.
Proof.
  apply (config_round_trip (lit "heb") 120 2000 (World None None [] [] [false; false]) 3).
  - unfold valid_config. split; [right; reflexivity|lia].
  - repeat constructor.
Defined.

(** C6.  On a store without the document, [read_or_initialize_config]
    returns the default configuration, which holds eng under [lang], 300
    under [words_limit], 4096 under [telegram_message_size_limit] and no
    other field, and stores it; a second call returns the same configuration
    and leaves the document as the first call left it. *)
Theorem read_or_initialize_default (w : world) :
  config_doc w = None -> healthy w ->
  exists w1 w2 d,
    read_or_initialize_config w = (Ret d, w1)
    /\ d !! "lang" = Some (PyStr [101; 110; 103]%N)
    /\ d !! "words_limit" = Some (PyInt 300)
    /\ d !! "telegram_message_size_limit" = Some (PyInt 4096)
    /\ size d = 3
    /\ config_doc w1 = Some d
    /\ read_or_initialize_config w1 = (Ret d, w2)
    /\ config_doc w2 = Some d.
Proof.
  intros Hd Hh.
  exists (set_config_doc (Some default_config) (drain 2 w)).
  exists (drain 1 (set_config_doc (Some default_config) (drain 2 w))).
  exists default_config.
  split; [exact (read_missing w Hd Hh)|].
  repeat (split; [reflexivity|]).
  split; [|reflexivity].
  apply read_existing; [reflexivity|].
  apply healthy_not_fails, healthy_set_config_doc, healthy_drain, Hh.
Qed.

Lemma read_or_initialize_default_witness :
  exists w1 w2 d,
    read_or_initialize_config (World None None [] [] []) = (Ret d, w1)
    /\ d !! "lang" = Some (PyStr [101; 110; 103]%N)
    /\ d !! "words_limit" = Some (PyInt 300)
    /\ d !! "telegram_message_size_limit" = Some (PyInt 4096)
    /\ size d = 3
    /\ config_doc w1 = Some d
    /\ read_or_initialize_config w1 = (Ret d, w2)
    /\ config_doc w2 = Some d.
Proof.
  apply (read_or_initialize_default (World None None [] [] [])).
  - reflexivity.
  - constructor.
Defined.

End ConfigClaims.

(** ** Claims about the prompts *)

Section PromptClaims.

Variable completion : nat -> str -> result str.

Lemma lang_test (config : gmap string value) :
  eq_str (dict_get config "lang") (lit "heb") = true
  <-> config !! "lang" = Some (PyStr (lit "heb")).
Proof.
  unfold dict_get. destruct (config !! "lang") as [[| |n|s]|]; cbn [eq_str];
    try (split; [discriminate|intros H; discriminate H]).
  rewrite str_eqb_eq. split; [now intros ->|intros H; now injection H].
Qed.

(** What one request to the completion service does: the prompt is logged,
    and the answer comes back stripped or the exception is raised again. *)
Lemma get_openai_response_run (prompt : str) (w : world) :
  get_openai_response completion prompt w
  = (match completion (length (prompts w)) prompt with
     | Ret content => Ret (strip content)
     | Raise e => Raise e
     end,
     set_prompts (prompts w ++ [prompt]) w).
Proof.
  unfold get_openai_response, try_except, bind, chat_completions_create.
  now destruct (completion (length (prompts w)) prompt).
Qed.

Lemma get_openai_summary_run (text : str) (is_webpage : bool)
    (config : gmap string value) (w : world) :
  get_openai_summary completion text is_webpage config w
  = get_openai_response completion (summary_prompt text is_webpage config) w.
Proof. reflexivity. Qed.

(** The prompt for any configuration, with the word limit as the f-string
    renders what the configuration holds under [words_limit]. *)
Lemma summary_prompt_shape (text : str) (config : gmap string value) (k : sourceKind) :
  summary_prompt text (is_webpage_of k) config
  = (if decide (config !! "lang" = Some (PyStr (lit "heb")))
     then lit "Translate the answer to Hebrew, except Brands or technology terms and definitions. "
     else [])
    ++ (lit "Summarize this text extracted from a "
        ++ match k with
           | FullPage => lit "webpage"
           | ArticleBody | PdfDocument => lit "article"
           end
        ++ lit ".")
    ++ match k with
       | FullPage => lit "Remove any non-article elements like ads or navigation links. "
       | ArticleBody | PdfDocument => []
       end
    ++ (lit "Please provide a concise summary of the following article, focusing on the main points, arguments, and conclusions. The summary should be clear, informative, and no longer than "
        ++ to_str (dict_get config "words_limit")
        ++ lit " words. Replace bullet points with dashes (-), and use spaces to indicate indentation. ")
    ++ [nl; nl] ++ text.
Proof.
  unfold summary_prompt.
  pose proof (lang_test config) as Hlang.
  destruct (eq_str (dict_get config "lang") (lit "heb"));
    destruct (decide (config !! "lang" = Some (PyStr (lit "heb")))) as [Hd|Hd];
    try (exfalso; apply Hd, Hlang; reflexivity);
    try (apply Hlang in Hd; discriminate Hd);
    destruct k; cbn [is_webpage_of];
    repeat rewrite <- app_assoc; reflexivity.
Qed.

(** The digits of a decimal numeral, read from the left, give its number. *)
Lemma uint_digits_acc (d : Decimal.uint) (acc : positive) :
  fold_left (fun acc c => (10 * acc + Z.of_N (c - 48))%Z)
    (lit (NilEmpty.string_of_uint d)) (Z.pos acc)
  = Z.pos (Pos.of_uint_acc d acc).
Proof.
  revert acc. induction d as [|d IH|d IH|d IH|d IH|d IH|d IH|d IH|d IH|d IH|d IH];
    intros acc; [reflexivity| |..];
    cbn [NilEmpty.string_of_uint Pos.of_uint_acc]; rewrite <- IH;
    unfold lit; cbn [list_ascii_of_string map fold_left]; f_equal;
    try (set (x := Z.of_N _); vm_compute in x; subst x; lia).
Qed.

Lemma uint_digits (d : Decimal.uint) :
  digits_value (lit (NilEmpty.string_of_uint d)) = Z.of_N (Pos.of_uint d).
Proof.
  unfold digits_value.
  induction d as [|d IH|d IH|d IH|d IH|d IH|d IH|d IH|d IH|d IH|d IH];
    [reflexivity|exact IH|..];
    cbn [NilEmpty.string_of_uint Pos.of_uint Z.of_N]; rewrite <- uint_digits_acc;
    reflexivity.
Qed.

Lemma uint_all_digits (d : Decimal.uint) :
  forallb is_ascii_digit (lit (NilEmpty.string_of_uint d)) = true.
Proof.
  induction d as [|d IH|d IH|d IH|d IH|d IH|d IH|d IH|d IH|d IH|d IH];
    [reflexivity|..]; exact IH.
Qed.

Lemma nzhead_head (d : Decimal.uint) :
  match Decimal.nzhead d with Decimal.D0 _ => False | _ => True end.
Proof. induction d; cbn; auto. Qed.

Lemma to_uint_head (p : positive) :
  hd 48%N (lit (NilEmpty.string_of_uint (Pos.to_uint p))) <> 48%N.
Proof.
  pose proof (DecimalPos.Unsigned.to_of (Pos.to_uint p)) as H.
  rewrite DecimalPos.Unsigned.of_to in H. cbn [N.to_uint] in H.
  pose proof (nzhead_head (Pos.to_uint p)) as Hn.
  pose proof (DecimalPos.Unsigned.to_uint_nonzero p) as Hz.
  unfold Decimal.unorm in H.
  destruct (Decimal.nzhead (Pos.to_uint p)) eqn:E; try contradiction;
    rewrite H; cbn; discriminate.
Qed.

(** [str(n)] for a natural number is its decimal numeral: ASCII digits whose
    value is the number, without a leading zero but for 0 itself. *)
Lemma str_of_int_numeral (n : Z) :
  (0 <= n)%Z ->
  all_ascii_digits (str_of_int n) = true
  /\ digits_value (str_of_int n) = n
  /\ (str_of_int n = [48%N] \/ hd 48%N (str_of_int n) <> 48%N).
Proof.
  intros Hn. destruct n as [|p|p]; [repeat split; auto| |lia].
  unfold str_of_int. cbn [Z.to_int NilZero.string_of_int].
  assert (NilZero.string_of_uint (Pos.to_uint p)
          = NilEmpty.string_of_uint (Pos.to_uint p)) as ->.
  { pose proof (DecimalPos.Unsigned.to_uint_nonnil p).
    now destruct (Pos.to_uint p). }
  split; [|split].
  - pose proof (uint_all_digits (Pos.to_uint p)) as H.
    pose proof (DecimalPos.Unsigned.to_uint_nonnil p) as Hnil.
    unfold all_ascii_digits.
    destruct (lit (NilEmpty.string_of_uint (Pos.to_uint p))) eqn:E; [|exact H].
    destruct (Pos.to_uint p); [congruence|discriminate E..].
  - rewrite uint_digits, DecimalPos.Unsigned.of_to. reflexivity.
  - right. apply to_uint_head.
Qed.

(** C3.  The prompt [get_openai_summary] sends is, in this order: the
    translation instruction exactly when the language is heb; the framing
    instruction, naming a webpage for the whole page and an article for an
    article container or a PDF; the instruction to remove ads and navigation
    links exactly for the whole page; the fixed instruction with the word
    limit, the dashes and the spaces; a blank line; the text.  The word
    limit stands in it as the decimal numeral of the integer the
    configuration holds: for a limit that is not negative, ASCII digits
    whose value is the limit, without a leading zero. *)
Theorem summary_prompt_structure (text : str) (config : gmap string value)
    (k : sourceKind) (wl : Z) (w : world) :
  config !! "words_limit" = Some (PyInt wl) ->
  summary_prompt text (is_webpage_of k) config
  = (if decide (config !! "lang" = Some (PyStr (lit "heb")))
     then lit "Translate the answer to Hebrew, except Brands or technology terms and definitions. "
     else [])
    ++ (lit "Summarize this text extracted from a "
        ++ match k with
           | FullPage => lit "webpage"
           | ArticleBody | PdfDocument => lit "article"
           end
        ++ lit ".")
    ++ match k with
       | FullPage => lit "Remove any non-article elements like ads or navigation links. "
       | ArticleBody | PdfDocument => []
       end
    ++ (lit "Please provide a concise summary of the following article, focusing on the main points, arguments, and conclusions. The summary should be clear, informative, and no longer than "
        ++ str_of_int wl
        ++ lit " words. Replace bullet points with dashes (-), and use spaces to indicate indentation. ")
    ++ [nl; nl] ++ text
  /\ ((0 <= wl)%Z ->
      all_ascii_digits (str_of_int wl) = true
      /\ digits_value (str_of_int wl) = wl
      /\ (str_of_int wl = [48%N] \/ hd 48%N (str_of_int wl) <> 48%N))
  /\ prompts (snd (get_openai_summary completion text (is_webpage_of k) config w))
     = prompts w ++ [summary_prompt text (is_webpage_of k) config].
Proof.
  intros Hwl.
  split; [|split; [apply str_of_int_numeral|
                   now rewrite get_openai_summary_run, get_openai_response_run]].
  rewrite summary_prompt_shape. unfold dict_get. rewrite Hwl. reflexivity.
Qed.

(** With a word limit stored by [update_config], the bound is its decimal
    numeral. *)
Lemma summary_prompt_word_limit (lang : str) (wl ml : Z) :
  to_str (dict_get (config_of lang wl ml) "words_limit") = str_of_int wl.
Proof. reflexivity. Qed.

End PromptClaims.

Lemma summary_prompt_structure_witness :
  let config : gmap string value :=
    <["lang" := PyStr [104; 101; 98]%N]> (<["words_limit" := PyInt 250]> ∅) in
  summary_prompt (lit "abc") true config
  = lit "Translate the answer to Hebrew, except Brands or technology terms and definitions. Summarize this text extracted from a webpage.Remove any non-article elements like ads or navigation links. Please provide a concise summary of the following article, focusing on the main points, arguments, and conclusions. The summary should be clear, informative, and no longer than 250 words. Replace bullet points with dashes (-), and use spaces to indicate indentation. "
    ++ [10; 10]%N ++ lit "abc"
  /\ digits_value [50; 53; 48]%N = 250%Z.
Proof.
  cbv zeta.
  pose proof (summary_prompt_structure (fun _ _ => Raise TypeError) (lit "abc")
                (<["lang" := PyStr [104; 101; 98]%N]> (<["words_limit" := PyInt 250]> ∅))
                FullPage 250 (World None None [] [] []) eq_refl) as (Hp & Hn & _).
  split; [exact Hp|]. exact (proj1 (proj2 (Hn ltac:(lia)))).
Defined.

(** ** Claims about the handlers *)

Section HandlerClaims.

Variable completion : nat -> str -> result str.
Variable render : str -> result node.
Variable allowed_users : list Z.

Lemma blob_download_ok (text : str) (w : world) :
  last_article w = Some text -> storage_fails w = false ->
  blob_download w = (Ret text, drain 1 w).
Proof.
  intros Hl Hs. unfold blob_download, bind. rewrite (cloud_call_ok _ w Hs).
  cbn. now rewrite Hl.
Qed.

(** [TextSummarizer.respond] never reaches the completion service. *)
Lemma text_summarizer_respond_raises (prompt : str) (config : gmap string value)
    (w : world) :
  respond prompt config w = (Raise TypeError, w).
Proof. reflexivity. Qed.

(** C9, as amended.  For an allowed user with a stored article and a
    working store, /resp sends one request whose prompt is the article, six
    line breaks, the user's words joined by spaces and two line breaks,
    nothing else; it replies with the stripped answer formatted with the
    configured message limit; and when the request fails the exception
    leaves the handler, after that one request and without a reply. *)
Theorem respond_summary_run (user_id : Z) (args : list str)
    (config : gmap string value) (limit : value) (max_chars : Z)
    (last_text : str) (w : world) :
  existsb (Z.eqb user_id) allowed_users = true ->
  args <> [] ->
  healthy w ->
  config_doc w = Some config ->
  config !! "telegram_message_size_limit" = Some limit ->
  as_int limit = Some max_chars ->
  last_article w = Some last_text ->
  let prompt :=
    last_text ++ [nl; nl; nl; nl; nl; nl] ++ join (lit " ") args ++ [nl; nl] in
  let sent := set_prompts (prompts w ++ [prompt]) (drain 2 w) in
  respond_summary completion allowed_users user_id args w
  = match completion (length (prompts w)) prompt with
    | Ret content =>
        (Ret tt,
         set_outbox
           (outbox w
            ++ [ReplyHtml (prepare_message_for_telegram (strip content) max_chars)])
           sent)
    | Raise e => (Raise e, sent)
    end.
Proof.
  intros Hu Ha Hh Hc Hlim Hint Hlast prompt sent.
  unfold respond_summary. rewrite Hu. cbn [negb].
  destruct args as [|a rest]; [congruence|].
  unfold bind at 1.
  rewrite (read_existing config w Hc (healthy_not_fails w Hh)).
  unfold bind at 1. unfold try_except, bind at 1.
  rewrite (blob_download_ok last_text (drain 1 w)); cycle 1.
  { exact Hlast. }
  { apply healthy_not_fails, healthy_drain, Hh. }
  rewrite drain_drain. cbn [Nat.add]. unfold ret at 1.
  unfold bind at 1. rewrite get_openai_response_run.
  change (respond_prompt last_text (join (lit " ") (a :: rest))) with prompt.
  change (prompts (drain 2 w)) with (prompts w).
  change (set_prompts (prompts w ++ [prompt]) (drain 2 w)) with sent.
  destruct (completion (length (prompts w)) prompt) as [content|e]; [|reflexivity].
  unfold bind at 1, subscript. rewrite Hlim. unfold ret at 1.
  unfold bind, prepare_with. rewrite Hint. reflexivity.
Qed.

(** C9, as stated, fails: the prompt /resp sends ends with two line breaks
    after the user's words, so it is not the article, a separator and the
    words. *)
Lemma respond_prompt_counterexample :
  let w := World (Some default_config) (Some (lit "A")) [] [] [] in
  prompts (snd (respond_summary (fun _ _ => Ret []) [7%Z] 7 [lit "Q"] w))
  = [lit "A" ++ [nl; nl; nl; nl; nl; nl] ++ lit "Q" ++ [nl; nl]]
  /\ ~ exists sep : str,
         lit "A" ++ [nl; nl; nl; nl; nl; nl] ++ lit "Q" ++ [nl; nl]
         = lit "A" ++ sep ++ lit "Q".
Proof.
  split; [reflexivity|].
  intros [sep H].
  change (lit "A" ++ [nl; nl; nl; nl; nl; nl] ++ lit "Q" ++ [nl; nl])
    with (lit "A" ++ ([nl; nl; nl; nl; nl; nl; 81%N; nl] ++ [nl])) in H.
  change (lit "A" ++ sep ++ lit "Q") with (lit "A" ++ (sep ++ [81%N])) in H.
  apply app_inv_head in H. apply app_inj_tail in H as [_ H].
  vm_compute in H. discriminate H.
Qed.

(** C10.  When the extraction of a /summ request returns the empty text,
    the handler ends with the world as it found it: no reply is sent, no
    request goes to the completion service, and the stored article is the
    one that was there. *)
Theorem summarize_article_empty_text (user_id : Z) (url : str) (rest : list str)
    (is_full_page : bool) (w : world) :
  existsb (Z.eqb user_id) allowed_users = true ->
  str_eqb (lower url) (lit "pdf") = false ->
  extract_from_url render url w = (Ret ([], is_full_page), w) ->
  summarize_article completion render allowed_users user_id (url :: rest) w
  = (Ret tt, w).
Proof.
  intros Hu Hpdf Hex. unfold summarize_article.
  rewrite Hu, Hpdf. cbn [negb]. unfold bind. rewrite Hex. reflexivity.
Qed.

End HandlerClaims.

Lemma respond_summary_run_witness :
  let w := World (Some default_config) (Some (lit "Article")) [] [] [] in
  let answer (k : nat) (prompt : str) := Ret (lit " It is. Fine ") in
  respond_summary answer [7%Z] 7 [lit "Is"; lit "it?"] w
  = (Ret tt,
     World (Some default_config) (Some (lit "Article"))
       [ReplyHtml (lit "It is." ++ [nl] ++ lit "Fine")]
       [lit "Article" ++ [nl; nl; nl; nl; nl; nl] ++ lit "Is it?" ++ [nl; nl]]
       []).
Proof.
  cbv zeta.
  exact (respond_summary_run (fun _ _ => Ret (lit " It is. Fine ")) [7%Z] 7%Z
           [lit "Is"; lit "it?"] default_config (PyInt 4096) 4096 (lit "Article")
           (World (Some default_config) (Some (lit "Article")) [] [] [])
           eq_refl ltac:(discriminate) (Forall_nil_2 _) eq_refl eq_refl eq_refl eq_refl).
Defined.

Lemma summarize_article_empty_text_witness :
  let blank := Tag (lit "[document]") [] [NavigableString (lit "  ")] in
  let w := World None (Some (lit "old")) [] [] [] in
  summarize_article (fun _ _ => Ret []) (fun _ => Ret blank) [7%Z] 7
    [lit "http://example.org"] w
  = (Ret tt, w).
Proof.
  cbv zeta.
  exact (summarize_article_empty_text (fun _ _ => Ret [])
           (fun _ => Ret (Tag (lit "[document]") [] [NavigableString (lit "  ")]))
           [7%Z] 7%Z (lit "http://example.org") [] true
           (World None (Some (lit "old")) [] [] [])
           eq_refl eq_refl eq_refl).
Defined.

(** ** The extractor *)

Section NodeInduction.

Variable P : node -> Prop.
Hypothesis P_string : forall s, P (NavigableString s).
Hypothesis P_comment : forall s, P (Comment s).
Hypothesis P_tag :
  forall name classes children,
    Forall P children -> P (Tag name classes children).

(** Induction over a page, with the hypothesis for every child of a tag. *)
Lemma node_induction : forall n : node, P n.
Proof.
  exact (fix IH (n : node) : P n :=
           match n with
           | NavigableString s => P_string s
           | Comment s => P_comment s
           | Tag name classes children =>
               P_tag name classes children
                 ((fix all (l : list node) : Forall P l :=
                     match l with
                     | [] => @List.Forall_nil _ P
                     | c :: l' => @List.Forall_cons _ P c l' (IH c) (all l')
                     end) children)
           end).
Qed.

End NodeInduction.

Section ExtractorFacts.

Lemma list_find_app {A} (p : A -> bool) (l1 l2 : list A) :
  List.find p (l1 ++ l2)
  = match List.find p l1 with
    | Some r => Some r
    | None => List.find p l2
    end.
Proof.
  induction l1 as [|a l1 IH]; [reflexivity|].
  cbn. destruct (p a); [reflexivity|exact IH].
Qed.

Lemma list_find_some {A} (p : A -> bool) (l : list A) (b : A) :
  List.find p l = Some b
  <-> exists pre post,
        l = pre ++ b :: post /\ p b = true /\ Forall (fun m => p m = false) pre.
Proof.
  induction l as [|a l IH]; cbn.
  - split; [discriminate|]. intros (pre & post & E & _). now destruct pre.
  - destruct (p a) eqn:Ea.
    + split.
      * intros H. injection H as <-. exists [], l. repeat split; auto.
      * intros (pre & post & E & Hb & Hpre).
        destruct pre as [|a' pre]; cbn in E; injection E as <- E; [reflexivity|].
        inversion Hpre; congruence.
    + rewrite IH. split.
      * intros (pre & post & -> & Hb & Hpre). exists (a :: pre), post.
        repeat split; auto.
      * intros (pre & post & E & Hb & Hpre).
        destruct pre as [|a' pre]; cbn in E; injection E as <- E; [congruence|].
        exists pre, post. inversion Hpre; subst. repeat split; auto.
Qed.

Lemma list_find_none {A} (p : A -> bool) (l : list A) :
  List.find p l = None <-> Forall (fun m => p m = false) l.
Proof.
  induction l as [|a l IH]; cbn.
  - split; auto.
  - destruct (p a) eqn:Ea.
    + split; [discriminate|]. intros H. inversion H; congruence.
    + rewrite IH. split; [auto|]. intros H. now inversion H.
Qed.

(** [find] is the first match among the descendants, in document order. *)
Lemma find_first_descendant (p : node -> bool) (n : node) :
  find p n = List.find p (descendants n).
Proof.
  induction n as [s|s|name classes children IH] using node_induction;
    try reflexivity.
  cbn [find descendants].
  induction IH as [|c l Hc _ IHl]; [reflexivity|].
  cbn [flat_map app List.find]. destruct (p c); [reflexivity|].
  rewrite list_find_app, <- Hc. destruct (find p c); [reflexivity|exact IHl].
Qed.

(** After [decompose_all] no tag of the given names is left. *)
Lemma decompose_all_clears (names : list str) (n : node) :
  Forall (fun m => has_name names m = false) (descendants (decompose_all names n)).
Proof.
  induction n as [s|s|name classes children IH] using node_induction;
    try constructor.
  cbn [decompose_all descendants].
  induction IH as [|c l Hc _ IHl]; [constructor|].
  destruct (has_name names c) eqn:Ec; [exact IHl|].
  cbn [flat_map]. apply Forall_app. split; [|exact IHl].
  constructor; [|exact Hc].
  destruct c; cbn in *; auto.
Qed.

(** [lstrip] takes leading whitespace off, and nothing else. *)
Lemma lstrip_spec (s : str) :
  exists l, s = l ++ lstrip s
            /\ forallb is_space l = true
            /\ match lstrip s with
               | c :: _ => is_space c = false
               | [] => True
               end.
Proof.
  induction s as [|c s (l & E & Hl & Hhd)].
  - exists []. repeat split.
  - cbn [lstrip]. destruct (is_space c) eqn:Ec.
    + exists (c :: l). cbn. rewrite Ec, Hl. repeat split; [congruence|exact Hhd].
    + exists []. repeat split. exact Ec.
Qed.

Lemma rstrip_spec (s : str) :
  exists r, s = rstrip s ++ r
            /\ forallb is_space r = true
            /\ match rev (rstrip s) with
               | c :: _ => is_space c = false
               | [] => True
               end.
Proof.
  destruct (lstrip_spec (rev s)) as (l & E & Hl & Hhd).
  exists (rev l). unfold rstrip. rewrite rev_involutive. repeat split.
  - rewrite <- rev_app_distr, <- E. symmetry. apply rev_involutive.
  - rewrite forallb_forall in *. intros c Hc. apply Hl. now apply in_rev.
  - exact Hhd.
Qed.

(** [strip] takes whitespace off both ends, and the result neither starts
    nor ends with whitespace. *)
Lemma strip_spec (s : str) :
  exists l r,
    s = l ++ strip s ++ r
    /\ forallb is_space l = true /\ forallb is_space r = true
    /\ match strip s with
       | c :: _ => is_space c = false
       | [] => True
       end
    /\ match rev (strip s) with
       | c :: _ => is_space c = false
       | [] => True
       end.
Proof.
  destruct (lstrip_spec s) as (l & El & Hl & Hhd).
  destruct (rstrip_spec (lstrip s)) as (r & Er & Hr & Hlast).
  exists l, r. unfold strip. repeat split; auto.
  - rewrite <- Er. exact El.
  - destruct (rstrip (lstrip s)) as [|c t] eqn:Et; [exact I|].
    rewrite Er in Hhd. exact Hhd.
Qed.

(** The strings [stripped_strings] yields: each is the stripped text of a
    string below the tag, and is not empty. *)
Lemma stripped_strings_from (n : node) (t : str) :
  In t (stripped_strings n) ->
  t <> [] /\ exists s, In (NavigableString s) (descendants n) /\ t = strip s.
Proof.
  unfold stripped_strings. intros H. apply list_elem_of_In in H.
  apply list_elem_of_omap in H as (m & Hm & Hs).
  apply list_elem_of_In in Hm.
  destruct m as [s| |]; try discriminate. cbn in Hs.
  destruct (strip s) as [|c t'] eqn:E; [discriminate|].
  injection Hs as <-. split; [discriminate|]. exists s. now rewrite E.
Qed.

End ExtractorFacts.

(** ** Claims about the extractor *)

Section ExtractorClaims.

Lemma find_some (p : node -> bool) (soup b : node) :
  find p soup = Some b <-> first_in_document p soup b.
Proof. rewrite find_first_descendant. apply list_find_some. Qed.

Lemma find_none (p : node -> bool) (soup : node) :
  find p soup = None <-> absent p soup.
Proof. rewrite find_first_descendant. apply list_find_none. Qed.

(** Either a container of a kind comes first in the page, or there is none. *)
Lemma container_cases (p : node -> bool) (soup : node) :
  (exists b, first_in_document p soup b) \/ absent p soup.
Proof.
  destruct (find p soup) as [b|] eqn:E.
  - left. exists b. now apply find_some.
  - right. now apply find_none.
Qed.

(** [str.strip] trims. *)
Lemma strip_trimmed (s : str) : trimmed s (strip s).
Proof.
  destruct (strip_spec s) as (l & r & E & Hl & Hr & Hhd & Hlast).
  exists l, r. split; [exact E|].
  split; [apply List.Forall_forall; intros c Hc;
          exact (proj1 (forallb_forall _ _) Hl c Hc)|].
  split; [apply List.Forall_forall; intros c Hc;
          exact (proj1 (forallb_forall _ _) Hr c Hc)|].
  split.
  - intros c t' Et. rewrite Et in Hhd. exact Hhd.
  - intros c t' Et. rewrite Et, rev_app_distr in Hlast. exact Hlast.
Qed.

Lemma lstrip_spaces (l s : str) :
  Forall (fun c => is_space c = true) l -> lstrip (l ++ s) = lstrip s.
Proof.
  induction 1 as [|c l Hc _ IH]; [reflexivity|]. cbn [app lstrip]. now rewrite Hc.
Qed.

Lemma lstrip_all_spaces (l : str) :
  Forall (fun c => is_space c = true) l -> lstrip l = [].
Proof.
  intros H. rewrite <- (app_nil_r l). now rewrite lstrip_spaces.
Qed.

Lemma Forall_spaces_rev (l : str) :
  Forall (fun c => is_space c = true) l -> Forall (fun c => is_space c = true) (rev l).
Proof.
  intros H. apply List.Forall_forall. intros c Hc. apply in_rev in Hc.
  exact (proj1 (List.Forall_forall _ _) H c Hc).
Qed.

(** Nothing but [strip s] is [s] trimmed. *)
Lemma trimmed_strip (s t : str) : trimmed s t -> t = strip s.
Proof.
  intros (l & r & -> & Hl & Hr & Hhd & Hlast).
  unfold strip. rewrite lstrip_spaces by exact Hl.
  destruct t as [|c t'].
  - cbn [app]. rewrite (lstrip_all_spaces r Hr). reflexivity.
  - cbn [app lstrip]. rewrite (Hhd c t' eq_refl).
    change (c :: t' ++ r) with ((c :: t') ++ r).
    unfold rstrip. rewrite rev_app_distr.
    rewrite lstrip_spaces by now apply Forall_spaces_rev.
    destruct (exists_last (l := c :: t')) as (t'' & c' & E); [discriminate|].
    rewrite E, rev_app_distr. cbn [rev app lstrip].
    rewrite (Hlast c' t'' E). cbn [rev]. now rewrite rev_involutive.
Qed.

Lemma pieces_of_unique (nodes pieces pieces' : list str) :
  pieces_of nodes pieces -> pieces_of nodes pieces' -> pieces = pieces'.
Proof.
  intros H. revert pieces'.
  induction H as [|s rest pieces Hs _ IH|s t rest pieces Hs Ht _ IH];
    intros pieces' H'; inversion H' as [|s' rest' q Hs' Hq|s' t' rest' q Hs' Ht' Hq];
    subst; auto.
  - apply trimmed_strip in Hs, Hs'. congruence.
  - apply trimmed_strip in Hs, Hs'. congruence.
  - apply trimmed_strip in Hs, Hs'. f_equal; [congruence|now apply IH].
Qed.

Lemma pieces_of_app (a b pa pb : list str) :
  pieces_of a pa -> pieces_of b pb -> pieces_of (a ++ b) (pa ++ pb).
Proof.
  intros Ha Hb. induction Ha as [|s rest pieces Hs _ IH|s t rest pieces Hs Ht _ IH].
  - exact Hb.
  - cbn [app]. now apply pieces_skip.
  - cbn [app]. now apply pieces_keep.
Qed.

(** The strings [stripped_strings] finds from a node on are the pieces of
    the text nodes of its subtree. *)
Lemma pieces_of_subtree (n : node) :
  pieces_of (text_nodes n) (omap stripped (n :: descendants n)).
Proof.
  induction n as [s|s|name classes children IH] using node_induction.
  - cbn [text_nodes descendants omap list_omap stripped].
    pose proof (strip_trimmed s) as Hs.
    destruct (strip s) as [|c t] eqn:E.
    + apply pieces_skip; [exact Hs|constructor].
    + apply pieces_keep; [exact Hs|discriminate|constructor].
  - constructor.
  - cbn [text_nodes descendants]. change (omap stripped (Tag name classes children
       :: flat_map (fun c => c :: descendants c) children))
      with (omap stripped (flat_map (fun c => c :: descendants c) children)).
    induction IH as [|c l Hc _ IHl]; [constructor|].
    cbn [flat_map]. rewrite omap_app. now apply pieces_of_app.
Qed.

Lemma pieces_of_stripped_strings (n : node) :
  pieces_of (text_nodes_below n) (stripped_strings n).
Proof.
  destruct n as [s|s|name classes children]; try constructor.
  exact (pieces_of_subtree (Tag name classes children)).
Qed.

(** [" ".join] puts one space before each part but the first. *)
Lemma join_spaced (parts : list str) : join (lit " ") parts = spaced parts.
Proof.
  destruct parts as [|first others]; [reflexivity|].
  revert first. induction others as [|p others IH]; intros first.
  - cbn. now rewrite app_nil_r.
  - change (join (lit " ") (first :: p :: others))
      with (first ++ lit " " ++ join (lit " ") (p :: others)).
    rewrite IH. reflexivity.
Qed.

Lemma stripped_strings_text (n : node) :
  is_text_of n (join (lit " ") (stripped_strings n)).
Proof.
  exists (stripped_strings n).
  split; [apply pieces_of_stripped_strings|apply join_spaced].
Qed.

(** C4, as amended.  The container is the first article element of the
    page; without one, the first div of class article-content; without one,
    the first main element.  With a container the flag says article body
    and the text is made of the text nodes below the container, taken in
    document order, each without its leading and trailing whitespace (what
    lies between is kept as it is), those that are then empty left out, and
    joined by single spaces; without any container the flag says full page
    and the text is made in the same way of the text nodes of the whole
    page.  A node has one such text only. *)
Theorem extract_from_soup_container (soup : node) :
  (forall b, first_in_document is_article soup b ->
             exists text, extract_from_soup soup = (text, false) /\ is_text_of b text)
  /\ (forall b, absent is_article soup ->
                first_in_document is_article_content soup b ->
                exists text, extract_from_soup soup = (text, false) /\ is_text_of b text)
  /\ (forall b, absent is_article soup -> absent is_article_content soup ->
                first_in_document is_main soup b ->
                exists text, extract_from_soup soup = (text, false) /\ is_text_of b text)
  /\ (absent is_article soup -> absent is_article_content soup ->
      absent is_main soup ->
      exists text, extract_from_soup soup = (text, true) /\ is_text_of soup text)
  /\ (forall n text text', is_text_of n text -> is_text_of n text' -> text = text').
Proof.
  unfold extract_from_soup, article_body, or_else.
  fold is_article is_article_content is_main.
  split; [|split; [|split; [|split]]].
  5: { intros n text text' (p & Hp & ->) (p' & Hp' & ->).
       now rewrite (pieces_of_unique _ _ _ Hp Hp'). }
  all: repeat split.
  - intros b H. apply find_some in H. rewrite H.
    eexists. split; [reflexivity|apply stripped_strings_text].
  - intros b H1 H2. apply find_none in H1. apply find_some in H2.
    rewrite H1, H2. eexists. split; [reflexivity|apply stripped_strings_text].
  - intros b H1 H2 H3. apply find_none in H1, H2. apply find_some in H3.
    rewrite H1, H2, H3. eexists. split; [reflexivity|apply stripped_strings_text].
  - intros H1 H2 H3. apply find_none in H1, H2, H3. rewrite H1, H2, H3.
    eexists. split; [reflexivity|apply stripped_strings_text].
Qed.

Lemma extract_from_soup_container_witness :
  let article :=
    Tag (lit "article") []
      [NavigableString (lit " body  text ");
       Comment (lit "hidden");
       Tag (lit "p") [] [NavigableString [32; 10]%N; NavigableString (lit "more ")];
       NavigableString (lit "end")] in
  let page :=
    Tag (lit "[document]") []
      [Tag (lit "main") [] [NavigableString (lit "menu")]; article] in
  extract_from_soup page
  = ([98; 111; 100; 121; 32; 32; 116; 101; 120; 116; 32;
      109; 111; 114; 101; 32; 101; 110; 100]%N, false)
  /\ is_text_of article (lit "body  text more end").
Proof.
  cbv zeta.
  destruct (proj1 (extract_from_soup_container
                     (Tag (lit "[document]") []
                        [Tag (lit "main") [] [NavigableString (lit "menu")];
                         Tag (lit "article") []
                           [NavigableString (lit " body  text ");
                            Comment (lit "hidden");
                            Tag (lit "p") []
                              [NavigableString [32; 10]%N; NavigableString (lit "more ")];
                            NavigableString (lit "end")]]))
              (Tag (lit "article") []
                 [NavigableString (lit " body  text ");
                  Comment (lit "hidden");
                  Tag (lit "p") []
                    [NavigableString [32; 10]%N; NavigableString (lit "more ")];
                  NavigableString (lit "end")]))
    as (text & E & Ht).
  - exists [Tag (lit "main") [] [NavigableString (lit "menu")];
            NavigableString (lit "menu")].
    exists [NavigableString (lit " body  text ");
            Comment (lit "hidden");
            Tag (lit "p") [] [NavigableString [32; 10]%N; NavigableString (lit "more ")];
            NavigableString [32; 10]%N; NavigableString (lit "more ");
            NavigableString (lit "end")].
    repeat split. repeat constructor.
  - vm_compute in E. injection E as <-. split; [reflexivity|exact Ht].
Defined.

(** C4, as stated, fails: whitespace inside a string of the page is kept,
    so the extracted text is not whitespace-collapsed. *)
Lemma extract_from_soup_counterexample :
  let page :=
    Tag (lit "[document]") []
      [Tag (lit "article") [] [NavigableString (lit " body  text ")]] in
  extract_from_soup page = (lit "body  text", false)
  /\ occurs (lit "  ") (lit "body  text") = true.
Proof. split; reflexivity. Qed.

(** The page [extract_from_url] works on is the rendered one without its
    script and style elements; the world is not touched. *)
Lemma extract_from_url_run (render : str -> result node) (url : str) (w : world) :
  extract_from_url render url w
  = (match render url with
     | Ret content =>
         Ret (extract_from_soup (decompose_all [lit "script"; lit "style"] content))
     | Raise e => Raise e
     end, w).
Proof.
  unfold extract_from_url, bind. now destruct (render url).
Qed.

End ExtractorClaims.

(** ** What the handlers leave alone *)

Section Frames.

Variable completion : nat -> str -> result str.
Variable render : str -> result node.
Variable allowed_users : list Z.

(** Reading the configuration touches neither the chat, nor the stored
    article, nor the completion service. *)
Lemma read_or_initialize_frame (w : world) :
  let w' := snd (read_or_initialize_config w) in
  last_article w' = last_article w
  /\ outbox w' = outbox w
  /\ prompts w' = prompts w.
Proof.
  unfold read_or_initialize_config, doc_get, doc_set, bind, cloud_call, ret.
  destruct w as [doc art out pr fs]. cbn.
  destruct fs as [|[] fs]; cbn; auto;
    destruct doc; cbn; auto;
    destruct fs as [|[] fs]; cbn; auto.
Qed.

(** Summarising sends nothing to the chat and stores nothing. *)
Lemma summarize_frame (text : str) (flag : bool) (config : gmap string value)
    (w : world) :
  let w' := snd (summarize completion text flag config w) in
  last_article w' = last_article w /\ outbox w' = outbox w.
Proof.
  unfold summarize, bind. rewrite get_openai_summary_run, get_openai_response_run.
  destruct (completion _ _); cbn; auto.
  unfold subscript. destruct (config !! _) as [v|]; cbn; auto.
  unfold prepare_with. destruct (as_int v); cbn; auto.
Qed.

(** The request [summarize] sends carries the prompt of [summary_prompt]. *)
Lemma summarize_prompt_sent (text : str) (flag : bool) (config : gmap string value)
    (w : world) :
  prompts (snd (summarize completion text flag config w))
  = prompts w ++ [summary_prompt text flag config].
Proof.
  unfold summarize, bind. rewrite get_openai_summary_run, get_openai_response_run.
  destruct (completion _ _); cbn; auto.
  unfold subscript. destruct (config !! _) as [v|]; cbn; auto.
  unfold prepare_with. destruct (as_int v); cbn; auto.
Qed.

(** The source kind behind the flag: /summ passes the flag of the extractor,
    the upload handler passes the flag of a PDF. *)
Lemma summarize_article_prompt (user_id : Z) (url : str) (rest : list str)
    (text : str) (is_full_page : bool) (config : gmap string value) (w : world) :
  existsb (Z.eqb user_id) allowed_users = true ->
  str_eqb (lower url) (lit "pdf") = false ->
  extract_from_url render url w = (Ret (text, is_full_page), w) ->
  text <> [] ->
  healthy w -> config_doc w = Some config ->
  prompts (snd (summarize_article completion render allowed_users user_id
                  (url :: rest) w))
  = prompts w
    ++ [summary_prompt text (is_webpage_of (kind_of_flag is_full_page)) config].
Proof.
  intros Hu Hpdf Hex Hne Hh Hc. unfold summarize_article.
  rewrite Hu, Hpdf. cbn [negb]. unfold bind at 1. rewrite Hex. cbn [fst snd].
  destruct text as [|c text]; [congruence|].
  unfold bind at 1. rewrite (read_existing config w Hc (healthy_not_fails w Hh)).
  unfold bind at 1.
  pose proof (summarize_prompt_sent (c :: text) is_full_page config (drain 1 w)) as Hp.
  assert (is_webpage_of (kind_of_flag is_full_page) = is_full_page) as ->
    by now destruct is_full_page.
  destruct (summarize completion (c :: text) is_full_page config (drain 1 w))
    as [[summary|e] w2]; cbn [snd] in Hp; [|exact Hp].
  unfold bind, reply_html, try_except, blob_upload, bind, cloud_call.
  destruct w2 as [doc art out pr fs]. cbn [prompts] in Hp.
  destruct fs as [|[] fs]; exact Hp.
Qed.

Lemma summarize_pdf_prompt (pdf_text : str -> result str) (user_id : Z)
    (doc : document) (text : str) (config : gmap string value) (w : world) :
  existsb (Z.eqb user_id) allowed_users = true ->
  mime_type doc = lit "application/pdf" ->
  pdf_text (file_id doc) = Ret text ->
  healthy w -> config_doc w = Some config ->
  prompts (snd (summarize_pdf completion pdf_text allowed_users user_id (Some doc) w))
  = prompts w ++ [summary_prompt text (is_webpage_of PdfDocument) config].
Proof.
  intros Hu Hm Ht Hh Hc. unfold summarize_pdf.
  rewrite Hu, Hm. cbn [negb].
  change (str_eqb (lit "application/pdf") (lit "application/pdf")) with true.
  cbv iota. unfold bind at 1, extract_from_pdf. rewrite Ht.
  unfold bind at 1. rewrite (read_existing config w Hc (healthy_not_fails w Hh)).
  unfold bind at 1.
  pose proof (summarize_prompt_sent text false config (drain 1 w)) as Hp.
  cbn [is_webpage_of].
  destruct (summarize completion text false config (drain 1 w))
    as [[summary|e] w2]; cbn [snd] in Hp; [|exact Hp].
  unfold bind, reply_html, try_except, blob_upload, bind, cloud_call.
  destruct w2 as [d art out pr fs]. cbn [prompts] in Hp.
  destruct fs as [|[] fs]; exact Hp.
Qed.

(** X2.  The stored article changes only on the path of /summ that has extracted
    a non-empty text and has replied with its summary; it then is that text. *)
Lemma summarize_article_slot (user_id : Z) (args : list str) (w : world) :
  let w' := snd (summarize_article completion render allowed_users user_id args w) in
  last_article w' = last_article w
  \/ exists url rest text flag summary,
       args = url :: rest
       /\ extract_from_url render url w = (Ret (text, flag), w)
       /\ text <> []
       /\ outbox w' = outbox w ++ [ReplyHtml summary]
       /\ last_article w' = Some text.
Proof.
  cbv zeta.
  remember (summarize_article completion render allowed_users user_id args w)
    as run eqn:E.
  unfold summarize_article in E.
  destruct (negb (existsb (Z.eqb user_id) allowed_users));
    [subst run; left; reflexivity|].
  destruct args as [|url rest]; [subst run; left; reflexivity|].
  destruct (str_eqb (lower url) (lit "pdf")); [subst run; left; reflexivity|].
  unfold bind at 1 in E. rewrite extract_from_url_run in E.
  destruct (render url) as [content|e] eqn:Er; [|subst run; left; reflexivity].
  destruct (extract_from_soup _) as [text flag] eqn:Ex. cbn [fst snd] in E.
  destruct text as [|c text]; [subst run; left; reflexivity|].
  assert (extract_from_url render url w = (Ret (c :: text, flag), w)) as Hex
    by (now rewrite extract_from_url_run, Er, Ex).
  unfold bind at 1 in E.
  pose proof (read_or_initialize_frame w) as (Ra & Ro & _).
  destruct (read_or_initialize_config w) as [[config|e] w1]; cbn [snd] in Ra, Ro;
    [|subst run; left; exact Ra].
  unfold bind at 1 in E.
  pose proof (summarize_frame (c :: text) flag config w1) as (Sa & So).
  destruct (summarize completion (c :: text) flag config w1) as [[summary|e] w2];
    cbn [snd] in Sa, So; [|subst run; left; cbn [snd]; congruence].
  unfold bind, reply_html, try_except, blob_upload, bind, cloud_call in E.
  destruct w2 as [doc art out pr fs]. cbn [last_article outbox] in Sa, So.
  destruct fs as [|[] fs];
    cbn [faults set_outbox set_faults set_last_article snd fst last_article
         outbox config_doc prompts ret] in E;
    subst run;
    cbn [snd last_article outbox set_last_article set_outbox set_faults ret].
  - right. exists url, rest, (c :: text), flag, summary.
    split; [reflexivity|]. split; [exact Hex|]. split; [discriminate|].
    split; [congruence|reflexivity].
  - left. congruence.
  - right. exists url, rest, (c :: text), flag, summary.
    split; [reflexivity|]. split; [exact Hex|]. split; [discriminate|].
    split; [congruence|reflexivity].
Qed.

End Frames.

(** * Further properties *)

(** ** The formatter: what it never lets through *)

Section FormatterMore.

Lemma replace_Forall (P : char -> Prop) (old new s : str) :
  Forall P new -> Forall P s -> Forall P (replace old new s).
Proof.
  intros Hnew Hs. destruct old as [|a old]; cbn [replace].
  - apply Forall_app. split; [exact Hnew|].
    induction Hs as [|c s Hc _ IH]; cbn [flat_map]; [constructor|].
    constructor; [exact Hc|]. apply Forall_app. now split.
  - now apply replace_from_Forall.
Qed.

(** Replacing a character by nothing leaves no occurrence of it. *)
Lemma replace_single_gone (c : char) (s : str) :
  Forall (fun b => b <> c) (replace [c] [] s).
Proof.
  cbn [replace]. induction s as [|b s IH]; [constructor|].
  cbn [replace_from starts_with length Nat.sub app].
  destruct (char_eqb c b) eqn:E; cbn [andb].
  - destruct s; exact IH.
  - destruct s; (constructor; [|exact IH]);
      intros ->; rewrite char_eqb_refl in E; discriminate.
Qed.

Lemma plain_chars_slice (k : Z) (s : str) : plain_chars s -> plain_chars (slice_to k s).
Proof. intros H. unfold slice_to. destruct (0 <=? k)%Z; now apply Forall_take. Qed.

Lemma clean_markup_plain (summary : str) : plain_chars (clean_markup summary).
Proof.
  unfold clean_markup.
  match goal with
  | |- context [replace (lit "&") [] ?x] => generalize x; intros s2
  end.
  assert (plain_chars (replace (lit ">") [] (replace (lit "<") [] (replace (lit "&") [] s2))))
    as Hplain.
  { pose proof (replace_single_gone 38%N s2) as H38.
    pose proof (replace_single_gone 60%N (replace (lit "&") [] s2)) as H60.
    pose proof (replace_single_gone 62%N (replace (lit "<") [] (replace (lit "&") [] s2)))
      as H62.
    apply (replace_Forall _ (lit "<") []) in H38; [|constructor].
    apply (replace_Forall _ (lit ">") []) in H38; [|constructor].
    apply (replace_Forall _ (lit ">") []) in H60; [|constructor].
    change [38%N] with (lit "&") in *. change [60%N] with (lit "<") in *.
    change [62%N] with (lit ">") in *.
    unfold plain_chars. rewrite List.Forall_forall in *.
    intros c Hc. repeat split; auto. }
  apply replace_Forall; [repeat constructor; discriminate|].
  apply replace_Forall; [repeat constructor; discriminate|exact Hplain].
Qed.

Lemma prepare_plain (summary : str) (max_chars : Z) :
  plain_chars (prepare_message_for_telegram summary max_chars).
Proof.
  unfold prepare_message_for_telegram.
  pose proof (clean_markup_plain summary) as Hc.
  destruct (max_chars <? Z.of_nat (length (clean_markup summary)))%Z; [|exact Hc].
  apply Forall_app. split; [now apply plain_chars_slice|].
  repeat constructor; discriminate.
Qed.

(** X3.  Whatever the input and the budget, the formatted text holds none
    of the characters &, <, > (so none of the tags either). *)
Theorem format_markup_safe (summary : str) (max_chars : Z) :
  plain_chars (prepare_message_for_telegram summary max_chars)
  /\ markup_free (prepare_message_for_telegram summary max_chars).
Proof.
  split; [apply prepare_plain|apply plain_markup_free, prepare_plain].
Qed.

(** X4.  A text without markup characters in which neither a dash nor a
    full stop is followed by a space, and which fits the budget, comes back
    as it is. *)
Theorem format_keeps_settled_text (summary : str) (max_chars : Z) :
  plain_chars summary ->
  occurs (lit "- ") summary = false ->
  occurs (lit ". ") summary = false ->
  (Z.of_nat (length summary) <= max_chars)%Z ->
  prepare_message_for_telegram summary max_chars = summary.
Proof. intros Hp Hdash Hdot Hn. apply prepare_settled; [repeat split; auto|exact Hn]. Qed.

Lemma format_keeps_settled_text_witness :
  prepare_message_for_telegram (lit "Summary: all good.") 18 = lit "Summary: all good.".
Proof.
  apply (format_keeps_settled_text (lit "Summary: all good.") 18).
  - repeat constructor; discriminate.
  - reflexivity.
  - reflexivity.
  - vm_compute. discriminate.
Defined.

End FormatterMore.

(** ** The extractor: scripts, styles and blank pages *)

Section ExtractorMore.

Lemma decompose_all_leaf (names : list str) (n : node) (s : str) :
  decompose_all names n = NavigableString s -> n = NavigableString s.
Proof. destruct n; cbn; congruence. Qed.

(** Every string of the cleaned page is a string of the page. *)
Lemma decompose_all_strings (names : list str) (n : node) :
  forall s, In (NavigableString s) (descendants (decompose_all names n)) ->
            In (NavigableString s) (descendants n).
Proof.
  induction n as [t|t|name classes children IH] using node_induction;
    try (intros s []).
  intros s. cbn [decompose_all descendants].
  induction IH as [|c l Hc _ IHl]; [intros []|].
  cbn [flat_map]. destruct (has_name names c) eqn:Ec.
  - intros H. apply in_or_app. right. now apply IHl.
  - cbn [flat_map]. intros H. apply in_app_or in H as [[H|H]|H].
    + apply decompose_all_leaf in H. subst c. left. reflexivity.
    + right. apply in_or_app. left. now apply Hc.
    + apply in_or_app. right. now apply IHl.
Qed.

(** A page without any of the named tags is left as it is. *)
Lemma decompose_all_id (names : list str) (n : node) :
  Forall (fun m => has_name names m = false) (descendants n) ->
  decompose_all names n = n.
Proof.
  induction n as [t|t|name classes children IH] using node_induction;
    try reflexivity.
  cbn [decompose_all descendants]. intros H. f_equal.
  induction IH as [|c l Hc _ IHl]; [reflexivity|].
  cbn [flat_map] in H. apply Forall_app in H as [H Hl].
  inversion H as [|? ? Hcn Hcd]; subst.
  rewrite Hcn, (Hc Hcd), (IHl Hl). reflexivity.
Qed.

(** X5.  Taking the script and style elements out leaves a page without
    any of them at any depth, adds no string to the page, and changes
    nothing in a page that had none. *)
Theorem decompose_all_effect (names : list str) (content : node) :
  Forall (fun m => has_name names m = false)
    (descendants (decompose_all names content))
  /\ (forall s, In (NavigableString s) (descendants (decompose_all names content)) ->
                In (NavigableString s) (descendants content))
  /\ (Forall (fun m => has_name names m = false) (descendants content) ->
      decompose_all names content = content).
Proof.
  split; [apply decompose_all_clears|].
  split; [apply decompose_all_strings|apply decompose_all_id].
Qed.

Lemma lstrip_blank (s : str) : forallb is_space s = true -> lstrip s = [].
Proof.
  induction s as [|c s IH]; [reflexivity|].
  cbn. intros H. apply andb_true_iff in H as [Hc Hs]. rewrite Hc. auto.
Qed.

(** [strip] gives the empty string exactly on the strings of whitespace. *)
Lemma strip_empty (s : str) : strip s = [] <-> forallb is_space s = true.
Proof.
  split.
  - intros E. destruct (strip_spec s) as (l & r & Hs & Hl & Hr & _).
    rewrite E in Hs. rewrite Hs. cbn [app]. rewrite forallb_app, Hl, Hr. reflexivity.
  - intros H. unfold strip. rewrite (lstrip_blank s H). reflexivity.
Qed.

Lemma join_not_empty (sep : str) (parts : list str) :
  parts <> [] -> Forall (fun p => p <> []) parts -> join sep parts <> [].
Proof.
  intros Hne Hall. destruct Hall as [|p rest Hp Hrest]; [congruence|].
  cbn [join]. destruct rest; [exact Hp|].
  destruct p; [congruence|discriminate].
Qed.

Lemma omap_stripped_empty (l : list node) :
  omap stripped l = []
  <-> forall s, In (NavigableString s) l -> forallb is_space s = true.
Proof.
  induction l as [|m l IH].
  - split; [intros _ s []|reflexivity].
  - cbn [omap list_omap]. destruct m as [t|t|name classes children]; cbn [stripped].
    + destruct (strip t) as [|c t'] eqn:E.
      * rewrite IH. split.
        -- intros H s [Hs|Hs]; [|now apply H].
           injection Hs as <-. now apply strip_empty.
        -- intros H s Hs. apply H. now right.
      * split; [discriminate|]. intros H.
        assert (forallb is_space t = true) as Ht by (apply H; now left).
        apply strip_empty in Ht. congruence.
    + rewrite IH. split; intros H s Hs.
      * destruct Hs as [Hs|Hs]; [discriminate|now apply H].
      * apply H. now right.
    + rewrite IH. split; intros H s Hs.
      * destruct Hs as [Hs|Hs]; [discriminate|now apply H].
      * apply H. now right.
Qed.

(** The text taken from a node is empty exactly when every string below
    the node is made of whitespace only (or there is none). *)
Lemma text_empty_iff_blank (n : node) :
  join (lit " ") (stripped_strings n) = []
  <-> forall s, In (NavigableString s) (descendants n) -> forallb is_space s = true.
Proof.
  unfold stripped_strings. rewrite <- omap_stripped_empty. split.
  - intros H. destruct (omap stripped (descendants n)) as [|p rest] eqn:E;
      [reflexivity|].
    exfalso. revert H. apply join_not_empty; [discriminate|].
    apply List.Forall_forall. intros t Ht.
    apply (stripped_strings_from n t). unfold stripped_strings. now rewrite E.
  - now intros ->.
Qed.

(** X6.  The extracted text is empty exactly when every string below the
    chosen node (the container, or the page when there is none) is made of
    whitespace only. *)
Theorem extract_from_soup_empty (soup : node) :
  fst (extract_from_soup soup) = []
  <-> forall s,
        In (NavigableString s)
          (descendants (match article_body soup with
                        | Some body => body
                        | None => soup
                        end)) ->
        forallb is_space s = true.
Proof.
  unfold extract_from_soup.
  destruct (article_body soup) as [body|]; cbn [fst]; apply text_empty_iff_blank.
Qed.

End ExtractorMore.

(** ** What a command may do *)

Section Footprints.

Lemma within_refl (w : world) : within 0 0 w w.
Proof.
  repeat split; try (exists []; rewrite app_nil_r; split; [reflexivity|cbn; lia]).
  now left.
Qed.

Lemma within_weaken (a b a' b' : nat) (w w' : world) :
  a <= a' -> b <= b' -> within a b w w' -> within a' b' w w'.
Proof.
  intros Ha Hb ((so & Eo & Lo) & (sp & Ep & Lp) & Hc).
  repeat split; [exists so|exists sp|exact Hc]; split; auto; lia.
Qed.

Lemma within_trans (a b c d : nat) (w w1 w2 : world) :
  within a b w w1 -> within c d w1 w2 -> within (a + c) (b + d) w w2.
Proof.
  intros ((so & Eo & Lo) & (sp & Ep & Lp) & Hc)
         ((so' & Eo' & Lo') & (sp' & Ep' & Lp') & Hc').
  repeat split.
  - exists (so ++ so'). rewrite Eo', Eo, app_assoc, length_app. split; [reflexivity|lia].
  - exists (sp ++ sp'). rewrite Ep', Ep, app_assoc, length_app. split; [reflexivity|lia].
  - destruct Hc' as [Hc'|Hc']; [|now right].
    rewrite Hc'. exact Hc.
Qed.

Lemma footprint_weaken {A} (a b a' b' : nat) (m : M A) :
  a <= a' -> b <= b' -> footprint a b m -> footprint a' b' m.
Proof. intros Ha Hb H w. exact (within_weaken _ _ _ _ _ _ Ha Hb (H w)). Qed.

Lemma footprint_pure {A} (r : result A) : footprint 0 0 (fun w => (r, w)).
Proof. intros w. apply within_refl. Qed.

Lemma footprint_ret {A} (a : A) : footprint 0 0 (ret a).
Proof. apply footprint_pure. Qed.

Lemma footprint_raise {A} (e : exn) : footprint 0 0 (@raise A e).
Proof. apply footprint_pure. Qed.

Lemma footprint_bind {A B} (a b c d : nat) (m : M A) (k : A -> M B) :
  footprint a b m -> (forall x, footprint c d (k x)) ->
  footprint (a + c) (b + d) (bind m k).
Proof.
  intros Hm Hk w. unfold bind. specialize (Hm w).
  destruct (m w) as [[x|e] w1]; cbn [snd] in *.
  - exact (within_trans _ _ _ _ _ _ _ Hm (Hk x w1)).
  - apply (within_weaken a b); [lia|lia|exact Hm].
Qed.

Lemma footprint_try {A} (a b c d : nat) (m : M A) (h : exn -> M A) :
  footprint a b m -> (forall e, footprint c d (h e)) ->
  footprint (a + c) (b + d) (try_except m h).
Proof.
  intros Hm Hh w. unfold try_except. specialize (Hm w).
  destruct (m w) as [[x|e] w1]; cbn [snd] in *.
  - apply (within_weaken a b); [lia|lia|exact Hm].
  - exact (within_trans _ _ _ _ _ _ _ Hm (Hh e w1)).
Qed.

Lemma footprint_cloud_call (what : string) : footprint 0 0 (cloud_call what).
Proof.
  intros w. unfold cloud_call. destruct w as [doc art out pr fs].
  destruct fs as [|[] fs]; apply within_refl || (cbn; repeat split;
    try (exists []; rewrite app_nil_r; split; [reflexivity|cbn; lia]); now left).
Qed.

Lemma footprint_reply_text (s : str) : footprint 1 0 (reply_text s).
Proof.
  intros w. repeat split; cbn.
  - exists [ReplyText s]. split; [reflexivity|cbn; lia].
  - exists []. rewrite app_nil_r. split; [reflexivity|cbn; lia].
  - now left.
Qed.

Lemma footprint_reply_html (s : str) : footprint 1 0 (reply_html s).
Proof.
  intros w. repeat split; cbn.
  - exists [ReplyHtml s]. split; [reflexivity|cbn; lia].
  - exists []. rewrite app_nil_r. split; [reflexivity|cbn; lia].
  - now left.
Qed.

Lemma footprint_doc_get : footprint 0 0 doc_get.
Proof.
  unfold doc_get. apply (footprint_bind 0 0 0 0); [apply footprint_cloud_call|].
  intros _ w. apply within_refl.
Qed.

Lemma footprint_doc_set (lang : str) (wl ml : Z) :
  valid_config lang wl ml -> footprint 0 0 (doc_set (config_of lang wl ml)).
Proof.
  intros Hv. unfold doc_set.
  apply (footprint_bind 0 0 0 0); [apply footprint_cloud_call|].
  intros _ w. repeat split; cbn;
    try (exists []; rewrite app_nil_r; split; [reflexivity|cbn; lia]).
  right. now exists lang, wl, ml.
Qed.

Lemma footprint_blob_upload (text : str) : footprint 0 0 (blob_upload text).
Proof.
  unfold blob_upload. apply (footprint_bind 0 0 0 0); [apply footprint_cloud_call|].
  intros _ w. repeat split; cbn;
    try (exists []; rewrite app_nil_r; split; [reflexivity|cbn; lia]).
  now left.
Qed.

Lemma footprint_blob_download : footprint 0 0 blob_download.
Proof.
  unfold blob_download. apply (footprint_bind 0 0 0 0); [apply footprint_cloud_call|].
  intros _ w. destruct (last_article w); apply within_refl.
Qed.

Lemma default_config_valid : valid_config (lit "eng") 300 4096.
Proof. unfold valid_config. split; [now left|lia]. Qed.

Lemma footprint_read : footprint 0 0 read_or_initialize_config.
Proof.
  unfold read_or_initialize_config.
  apply (footprint_bind 0 0 0 0); [apply footprint_doc_get|].
  intros [d|]; [apply footprint_ret|].
  apply (footprint_bind 0 0 0 0); [|intros _; apply footprint_ret].
  apply footprint_doc_set, default_config_valid.
Qed.

Lemma footprint_update (lang : str) (wl ml : Z) :
  footprint 0 0 (update_config lang wl ml).
Proof.
  destruct (valid_config_dec lang wl ml) as [Hv|Hbad].
  - intros w. rewrite (update_config_valid lang wl ml w Hv). revert w.
    apply (footprint_try 0 0 0 0); [|intros _; apply footprint_ret].
    apply (footprint_bind 0 0 0 0); [|intros _; apply footprint_ret].
    now apply footprint_doc_set.
  - intros w. destruct (update_config_invalid lang wl ml w Hbad) as [msg ->].
    apply within_refl.
Qed.

End Footprints.

Section HandlerFootprints.

Variable completion : nat -> str -> result str.
Variable render : str -> result node.
Variable pdf_text : str -> result str.
Variable allowed_users : list Z.
Variable unicode_digit : char -> bool.
Variable int_other : str -> result Z.

Lemma footprint_get_openai_response (prompt : str) :
  footprint 0 1 (get_openai_response completion prompt).
Proof.
  intros w. rewrite get_openai_response_run. cbn [snd]. repeat split; cbn.
  - exists []. rewrite app_nil_r. split; [reflexivity|cbn; lia].
  - exists [prompt]. split; [reflexivity|cbn; lia].
  - now left.
Qed.

Lemma footprint_subscript (d : gmap string value) (k : string) :
  footprint 0 0 (subscript d k).
Proof. unfold subscript. destruct (d !! k); apply footprint_pure. Qed.

Lemma footprint_prepare_with (summary : str) (limit : value) :
  footprint 0 0 (prepare_with summary limit).
Proof. unfold prepare_with. destruct (as_int limit); apply footprint_pure. Qed.

Lemma footprint_summarize (text : str) (flag : bool) (config : gmap string value) :
  footprint 0 1 (summarize completion text flag config).
Proof.
  unfold summarize.
  apply (footprint_bind 0 1 0 0); [apply footprint_get_openai_response|].
  intros summary.
  apply (footprint_bind 0 0 0 0); [apply footprint_subscript|].
  intros limit. apply footprint_prepare_with.
Qed.

(** What follows a reply of the completion service, in /summ and for an
    uploaded file: the summary is sent and the article stored. *)
Lemma footprint_summarize_and_store (text : str) (flag : bool) :
  footprint 1 1
    (let* config := read_or_initialize_config in
     let* summary := summarize completion text flag config in
     reply_html summary ;;
     try_except (blob_upload text) (fun _ => ret tt)).
Proof.
  apply (footprint_bind 0 0 1 1); [apply footprint_read|].
  intros config.
  apply (footprint_bind 0 1 1 0); [apply footprint_summarize|].
  intros summary.
  apply (footprint_bind 1 0 0 0); [apply footprint_reply_html|].
  intros _.
  apply (footprint_try 0 0 0 0); [apply footprint_blob_upload|].
  intros _. apply footprint_ret.
Qed.

Lemma footprint_summarize_article (user_id : Z) (args : list str) :
  footprint 1 1 (summarize_article completion render allowed_users user_id args).
Proof.
  unfold summarize_article.
  destruct (negb (existsb (Z.eqb user_id) allowed_users)).
  { apply (footprint_weaken 1 0); [lia|lia|apply footprint_reply_text]. }
  destruct args as [|arg0 rest].
  { apply (footprint_weaken 1 0); [lia|lia|apply footprint_reply_text]. }
  destruct (str_eqb (lower arg0) (lit "pdf")).
  { apply (footprint_weaken 1 0); [lia|lia|apply footprint_reply_text]. }
  apply (footprint_bind 0 0 1 1).
  { intros w. rewrite extract_from_url_run. apply within_refl. }
  intros [text flag]. cbn [fst snd].
  destruct text as [|c text].
  { apply (footprint_weaken 0 0); [lia|lia|apply footprint_ret]. }
  apply footprint_summarize_and_store.
Qed.

Lemma footprint_summarize_pdf (user_id : Z) (uploaded : option document) :
  footprint 1 1 (summarize_pdf completion pdf_text allowed_users user_id uploaded).
Proof.
  unfold summarize_pdf.
  destruct (negb (existsb (Z.eqb user_id) allowed_users)).
  { apply (footprint_weaken 1 0); [lia|lia|apply footprint_reply_text]. }
  destruct uploaded as [doc|].
  2:{ apply (footprint_weaken 1 0); [lia|lia|apply footprint_reply_text]. }
  destruct (str_eqb (mime_type doc) (lit "application/pdf")).
  2:{ apply (footprint_weaken 1 0); [lia|lia|apply footprint_reply_text]. }
  apply (footprint_bind 0 0 1 1); [apply footprint_pure|].
  intros text. apply footprint_summarize_and_store.
Qed.

Lemma footprint_respond_summary (user_id : Z) (args : list str) :
  footprint 1 1 (respond_summary completion allowed_users user_id args).
Proof.
  unfold respond_summary.
  destruct (negb (existsb (Z.eqb user_id) allowed_users)).
  { apply (footprint_weaken 1 0); [lia|lia|apply footprint_reply_text]. }
  destruct args as [|arg0 rest].
  { apply (footprint_weaken 1 0); [lia|lia|apply footprint_reply_text]. }
  apply (footprint_bind 0 0 1 1); [apply footprint_read|].
  intros config w. unfold bind at 1. unfold try_except, bind at 1.
  pose proof (footprint_blob_download w) as Hd.
  destruct (blob_download w) as [[last_text|e] w1]; cbn [snd] in Hd.
  - unfold ret at 1.
    apply (within_trans 0 0 1 1 w w1); [exact Hd|].
    revert w1 Hd. intros w1 _. revert w1.
    apply (footprint_bind 0 1 1 0); [apply footprint_get_openai_response|].
    intros response.
    apply (footprint_bind 0 0 1 0); [apply footprint_subscript|].
    intros limit.
    apply (footprint_bind 0 0 1 0); [apply footprint_prepare_with|].
    intros text. apply footprint_reply_html.
  - unfold bind at 1.
    pose proof (footprint_reply_text
                  (lit "Failed to retrieve the last article. Please try summarizing a new article.")
                  w1) as Hr.
    destruct (reply_text _ w1) as [[u|e'] w2]; cbn [snd] in Hr |- *.
    + apply (within_weaken 1 0); [lia|lia|].
      exact (within_trans 0 0 1 0 w w1 w2 Hd Hr).
    + apply (within_weaken 1 0); [lia|lia|].
      exact (within_trans 0 0 1 0 w w1 w2 Hd Hr).
Qed.

Lemma footprint_set_config (user_id : Z) (args : list str) :
  footprint 1 0 (set_config allowed_users unicode_digit int_other user_id args).
Proof.
  unfold set_config.
  destruct (negb (existsb (Z.eqb user_id) allowed_users));
    [apply footprint_reply_text|].
  match goal with |- footprint _ _ (if ?c then _ else _) => destruct c end;
    [apply footprint_reply_text|].
  apply (footprint_bind 0 0 1 0); [apply footprint_pure|].
  intros words_limit.
  apply (footprint_bind 0 0 1 0).
  { match goal with |- footprint _ _ (if ?c then _ else _) => destruct c end;
      apply footprint_pure. }
  intros limit.
  apply (footprint_bind 0 0 1 0); [apply footprint_update|].
  intros []; apply footprint_reply_text.
Qed.

Lemma footprint_get_config (user_id : Z) :
  footprint 1 0 (get_config allowed_users user_id).
Proof.
  unfold get_config.
  destruct (negb (existsb (Z.eqb user_id) allowed_users));
    [apply footprint_reply_text|].
  apply (footprint_bind 0 0 1 0); [apply footprint_read|].
  intros config. destruct (dict_truth config); apply footprint_reply_text.
Qed.

End HandlerFootprints.

(** X7.  Each command sends at most one reply, and at most one request to
    the completion service (/set and /get send none); replies and requests
    already made are never taken back. *)
Theorem commands_stay_within (completion : nat -> str -> result str)
    (render : str -> result node) (pdf_text : str -> result str)
    (allowed_users : list Z) (unicode_digit : char -> bool)
    (int_other : str -> result Z)
    (user_id : Z) (args : list str) (uploaded : option document) (w : world) :
  within 1 1 w (snd (summarize_article completion render allowed_users user_id args w))
  /\ within 1 1 w (snd (respond_summary completion allowed_users user_id args w))
  /\ within 1 1 w (snd (summarize_pdf completion pdf_text allowed_users user_id uploaded w))
  /\ within 1 0 w (snd (set_config allowed_users unicode_digit int_other user_id args w))
  /\ within 1 0 w (snd (get_config allowed_users user_id w)).
Proof.
  split; [apply footprint_summarize_article|].
  split; [apply footprint_respond_summary|].
  split; [apply footprint_summarize_pdf|].
  split; [apply footprint_set_config|apply footprint_get_config].
Qed.




(** ** The commands /set and /get *)

Section ConfigCommands.

Variable allowed_users : list Z.
Variable unicode_digit : char -> bool.
Variable int_other : str -> result Z.

Lemma ascii_digits_isdigit (s : str) :
  all_ascii_digits s = true -> isdigit unicode_digit s = true.
Proof.
  unfold all_ascii_digits, isdigit. destruct s as [|c s]; [discriminate|].
  generalize (c :: s). intros l H. rewrite forallb_forall in *.
  intros x Hx. specialize (H x Hx). unfold is_ascii_digit in *.
  destruct (N.ltb_spec x 128); [exact H|].
  apply andb_true_iff in H as [_ H]. apply N.leb_le in H. lia.
Qed.

Lemma ascii_digits_int (s : str) :
  all_ascii_digits s = true -> length s <= 4300 ->
  int_of int_other s = Ret (digits_value s).
Proof.
  intros H L. unfold int_of. rewrite H.
  destruct (Nat.leb_spec (length s) 4300); [reflexivity|lia].
Qed.

Lemma digits_value_nonneg (s : str) : (0 <= digits_value s)%Z.
Proof.
  unfold digits_value.
  assert (forall acc : Z, (0 <= acc)%Z ->
            (0 <= fold_left (fun a c => (10 * a + Z.of_N (c - 48))%Z) s acc)%Z) as H.
  { induction s as [|c s IH]; intros acc Hacc; [exact Hacc|].
    cbn [fold_left]. apply IH. lia. }
  apply H. lia.
Qed.

(** On well-formed arguments /set is [update_config] on what they stand
    for, followed by the reply that tells how it went. *)
Lemma set_config_parsed (user_id : Z) (lang words : str) (rest : list str)
    (ml : Z) (w : world) :
  existsb (Z.eqb user_id) allowed_users = true ->
  lang = lit "eng" \/ lang = lit "heb" ->
  all_ascii_digits words = true -> length words <= 4300 ->
  limit_argument unicode_digit rest ml ->
  set_config allowed_users unicode_digit int_other user_id (lang :: words :: rest) w
  = (let* updated := update_config lang (digits_value words) ml in
     if updated
     then reply_text (lit "Configuration updated successfully.")
     else reply_text (lit "Failed to update configuration.")) w.
Proof.
  intros Hu Hlang Hw Lw Hlim. unfold set_config. rewrite Hu. cbn [negb].
  assert (length rest <= 1) as Hrest.
  { destruct Hlim as [[-> _]|(a & -> & _)]; cbn; lia. }
  assert (existsb (str_eqb lang) [lit "heb"; lit "eng"] = true) as Hl.
  { cbn [existsb]. destruct Hlang as [->| ->].
    - replace (str_eqb (lit "eng") (lit "eng")) with true by reflexivity.
      now rewrite orb_true_r.
    - reflexivity. }
  change (nth 0 (lang :: words :: rest) []) with lang.
  change (nth 1 (lang :: words :: rest) []) with words.
  rewrite Hl, (ascii_digits_isdigit words Hw). cbn [negb orb].
  destruct (Nat.ltb_spec (length (lang :: words :: rest)) 2); [cbn in *; lia|].
  destruct (Nat.ltb_spec 3 (length (lang :: words :: rest))); [cbn in *; lia|].
  cbn [orb]. unfold bind at 1. rewrite (ascii_digits_int words Hw Lw).
  unfold bind at 1.
  destruct Hlim as [[-> ->]|(a & -> & [[Ha ->]|(Ha & La & ->)])];
    cbn [length nth Nat.eqb andb].
  - reflexivity.
  - rewrite Ha. reflexivity.
  - rewrite (ascii_digits_isdigit a Ha), (ascii_digits_int a Ha La). reflexivity.
Qed.

(** X9.  /set with a language, a word limit in ASCII digits and at most
    one more argument stores the three values when they are inside the
    ranges and says so: the document then holds the language under [lang],
    the value of the numeral under [words_limit], the message limit under
    [telegram_message_size_limit], and no other field.  When the storage
    call fails it says that the update failed and stores nothing.  A third
    argument that is not a numeral is taken for the default limit 4096
    without a word. *)
Theorem set_config_updates (user_id : Z) (lang words : str) (rest : list str)
    (ml : Z) (w : world) :
  existsb (Z.eqb user_id) allowed_users = true ->
  lang = lit "eng" \/ lang = lit "heb" ->
  all_ascii_digits words = true -> length words <= 4300 ->
  limit_argument unicode_digit rest ml ->
  (digits_value words <= 800)%Z -> (1 <= ml <= 4096)%Z ->
  exists d,
    d !! "lang" = Some (PyStr lang)
    /\ d !! "words_limit" = Some (PyInt (digits_value words))
    /\ d !! "telegram_message_size_limit" = Some (PyInt ml)
    /\ size d = 3
    /\ set_config allowed_users unicode_digit int_other user_id (lang :: words :: rest) w
       = (Ret tt,
          if storage_fails w
          then set_outbox (outbox w ++ [ReplyText (lit "Failed to update configuration.")])
                 (drain 1 w)
          else set_outbox
                 (outbox w ++ [ReplyText (lit "Configuration updated successfully.")])
                 (set_config_doc (Some d) (drain 1 w))).
Proof.
  intros Hu Hlang Hw Lw Hlim Hwl Hml.
  exists (config_of lang (digits_value words) ml).
  destruct (config_of_fields lang (digits_value words) ml) as (F1 & F2 & F3 & F4).
  repeat (split; [assumption|]).
  rewrite (set_config_parsed user_id lang words rest ml w Hu Hlang Hw Lw Hlim).
  assert (valid_config lang (digits_value words) ml) as Hv.
  { split; [exact Hlang|]. pose proof (digits_value_nonneg words). lia. }
  unfold bind. destruct (storage_fails w) eqn:Hs.
  - now rewrite (update_config_soft_failure _ _ _ w Hv Hs).
  - now rewrite (update_config_stored _ _ _ w Hv Hs).
Qed.

(** X10.  /set does not check the ranges itself: with a word limit above
    800, or a message limit of 0 or above 4096, the ValueError of
    [update_config] leaves the handler; no reply is sent and nothing is
    stored. *)
Theorem set_config_out_of_range (user_id : Z) (lang words : str) (rest : list str)
    (ml : Z) (w : world) :
  existsb (Z.eqb user_id) allowed_users = true ->
  lang = lit "eng" \/ lang = lit "heb" ->
  all_ascii_digits words = true -> length words <= 4300 ->
  limit_argument unicode_digit rest ml ->
  (800 < digits_value words \/ ml < 1 \/ 4096 < ml)%Z ->
  exists msg,
    set_config allowed_users unicode_digit int_other user_id (lang :: words :: rest) w
    = (Raise (ValueError msg), w).
Proof.
  intros Hu Hlang Hw Lw Hlim Hout.
  rewrite (set_config_parsed user_id lang words rest ml w Hu Hlang Hw Lw Hlim).
  destruct (update_config_invalid lang (digits_value words) ml w) as [msg E].
  { unfold valid_config. lia. }
  exists msg. unfold bind. now rewrite E.
Qed.

End ConfigCommands.

Lemma set_config_updates_witness :
  exists d,
    d !! "lang" = Some (PyStr [104; 101; 98]%N)
    /\ d !! "words_limit" = Some (PyInt 250)
    /\ d !! "telegram_message_size_limit" = Some (PyInt 4096)
    /\ size d = 3
    /\ set_config [7%Z] (fun _ => false) (fun _ => Raise TypeError) 7
         [lit "heb"; lit "250"; lit "many"] (World None None [] [] [])
       = (Ret tt,
          World (Some d) None
            [ReplyText (lit "Configuration updated successfully.")] [] []).
Proof.
  exact (set_config_updates [7%Z] (fun _ => false) (fun _ => Raise TypeError) 7%Z
           (lit "heb") (lit "250") [lit "many"] 4096 (World None None [] [] [])
           eq_refl (or_intror eq_refl) eq_refl
           ltac:(cbn; lia)
           (or_intror (ex_intro _ (lit "many") (conj eq_refl (or_introl (conj eq_refl eq_refl)))))
           ltac:(vm_compute; discriminate) ltac:(lia)).
Defined.

Lemma set_config_out_of_range_witness :
  exists msg,
    set_config [7%Z] (fun _ => false) (fun _ => Raise TypeError) 7
      [lit "eng"; lit "801"] (World None None [] [] [])
    = (Raise (ValueError msg), World None None [] [] []).
Proof.
  apply (set_config_out_of_range [7%Z] (fun _ => false) (fun _ => Raise TypeError) 7%Z
           (lit "eng") (lit "801") [] 4096 (World None None [] [] [])).
  - reflexivity.
  - now left.
  - reflexivity.
  - cbn. lia.
  - now left.
  - left. vm_compute. reflexivity.
Defined.

Section ConfigRoundTrips.

Variable allowed_users : list Z.
Variable unicode_digit : char -> bool.
Variable int_other : str -> result Z.

(** What /get says of a configuration written by [update_config]. *)
Lemma config_msg_of (lang : str) (wl ml : Z) :
  config_msg (config_of lang wl ml)
  = lit "language: " ++ lang ++ [nl]
    ++ lit "summary words limit: " ++ str_of_int wl ++ [nl]
    ++ lit "telegram_msg_limit: " ++ str_of_int ml ++ [nl].
Proof. reflexivity. Qed.

Lemma get_config_existing (user_id : Z) (lang : str) (wl ml : Z) (w : world) :
  existsb (Z.eqb user_id) allowed_users = true ->
  config_doc w = Some (config_of lang wl ml) -> storage_fails w = false ->
  get_config allowed_users user_id w
  = (Ret tt,
     set_outbox (outbox w ++ [ReplyText (config_msg (config_of lang wl ml))])
       (drain 1 w)).
Proof.
  intros Hu Hc Hs. unfold get_config. rewrite Hu. cbn [negb].
  unfold bind. rewrite (read_existing _ w Hc Hs).
  replace (dict_truth (config_of lang wl ml)) with true by reflexivity.
  reflexivity.
Qed.

(** X11.  /get after a /set that went through tells the language as it
    was typed and the two limits as decimal numerals of the values that
    were typed. *)
Theorem set_then_get (user_id : Z) (lang words : str) (rest : list str)
    (ml : Z) (w : world) :
  existsb (Z.eqb user_id) allowed_users = true ->
  lang = lit "eng" \/ lang = lit "heb" ->
  all_ascii_digits words = true -> length words <= 4300 ->
  limit_argument unicode_digit rest ml ->
  (digits_value words <= 800)%Z -> (1 <= ml <= 4096)%Z ->
  healthy w ->
  (set_config allowed_users unicode_digit int_other user_id (lang :: words :: rest) ;;
   get_config allowed_users user_id) w
  = (Ret tt,
     set_outbox
       (outbox w
        ++ [ReplyText (lit "Configuration updated successfully.");
            ReplyText
              (lit "language: " ++ lang ++ [nl]
               ++ lit "summary words limit: " ++ str_of_int (digits_value words) ++ [nl]
               ++ lit "telegram_msg_limit: " ++ str_of_int ml ++ [nl])])
       (set_config_doc (Some (config_of lang (digits_value words) ml)) (drain 2 w))).
Proof.
  intros Hu Hlang Hw Lw Hlim Hwl Hml Hh. unfold bind at 1.
  rewrite (set_config_parsed allowed_users unicode_digit int_other user_id lang words
             rest ml w Hu Hlang Hw Lw Hlim).
  assert (valid_config lang (digits_value words) ml) as Hv.
  { split; [exact Hlang|].
    pose proof (digits_value_nonneg words). lia. }
  unfold bind at 1.
  rewrite (update_config_stored _ _ _ w Hv (healthy_not_fails w Hh)).
  unfold reply_text at 1.
  rewrite (get_config_existing user_id lang (digits_value words) ml); cycle 1.
  { exact Hu. }
  { reflexivity. }
  { apply healthy_not_fails. exact (healthy_drain 1 w Hh). }
  rewrite config_msg_of. unfold drain, set_outbox, set_config_doc, set_faults.
  cbn [config_doc last_article outbox prompts faults].
  rewrite drop_drop, <- app_assoc. reflexivity.
Qed.

(** X12.  /get on a store without the document stores the default
    configuration and tells it; on a stored document without any field it
    says that the configuration could not be retrieved. *)
Theorem get_config_edge_cases (user_id : Z) (w : world) :
  existsb (Z.eqb user_id) allowed_users = true ->
  healthy w ->
  (config_doc w = None ->
   get_config allowed_users user_id w
   = (Ret tt,
      set_outbox
        (outbox w
         ++ [ReplyText
               (lit "language: eng" ++ [nl] ++ lit "summary words limit: 300" ++ [nl]
                ++ lit "telegram_msg_limit: 4096" ++ [nl])])
        (set_config_doc (Some (config_of (lit "eng") 300 4096)) (drain 2 w))))
  /\ (config_doc w = Some ∅ ->
      get_config allowed_users user_id w
      = (Ret tt,
         set_outbox (outbox w ++ [ReplyText (lit "Failed to retrieve configuration.")])
           (drain 1 w))).
Proof.
  intros Hu Hh. split; intros Hc; unfold get_config; rewrite Hu; cbn [negb];
    unfold bind.
  - rewrite (read_missing w Hc Hh). reflexivity.
  - rewrite (read_existing ∅ w Hc (healthy_not_fails w Hh)). reflexivity.
Qed.

(** X13.  A failing Firestore call is caught by [update_config] only: in
    [read_or_initialize_config] it is raised to the caller, and /get then
    sends no reply. *)
Theorem read_failure_is_raised (user_id : Z) (w : world) :
  storage_fails w = true ->
  read_or_initialize_config w = (Raise (ServiceError "firestore"), drain 1 w)
  /\ (existsb (Z.eqb user_id) allowed_users = true ->
      get_config allowed_users user_id w
      = (Raise (ServiceError "firestore"), drain 1 w)).
Proof.
  intros Hs.
  assert (read_or_initialize_config w = (Raise (ServiceError "firestore"), drain 1 w))
    as Hr.
  { unfold read_or_initialize_config, doc_get, bind.
    now rewrite (cloud_call_fails _ w Hs). }
  split; [exact Hr|].
  intros Hu. unfold get_config. rewrite Hu. cbn [negb]. unfold bind. now rewrite Hr.
Qed.

(** X14.  The last write wins: of two updates inside the ranges, each
    returns true, and after the second the document holds the second
    language under [lang], the second word limit under [words_limit], the
    second message limit under [telegram_message_size_limit], and no other
    field, whatever was stored before. *)
Theorem update_config_last_write (lang1 lang2 : str) (wl1 ml1 wl2 ml2 : Z)
    (w : world) :
  valid_config lang1 wl1 ml1 -> valid_config lang2 wl2 ml2 -> healthy w ->
  exists w1 w2 d,
    update_config lang1 wl1 ml1 w = (Ret true, w1)
    /\ update_config lang2 wl2 ml2 w1 = (Ret true, w2)
    /\ config_doc w2 = Some d
    /\ d !! "lang" = Some (PyStr lang2)
    /\ d !! "words_limit" = Some (PyInt wl2)
    /\ d !! "telegram_message_size_limit" = Some (PyInt ml2)
    /\ size d = 3
    /\ last_article w2 = last_article w
    /\ outbox w2 = outbox w
    /\ prompts w2 = prompts w.
Proof.
  intros H1 H2 Hh.
  exists (set_config_doc (Some (config_of lang1 wl1 ml1)) (drain 1 w)).
  exists (set_config_doc (Some (config_of lang2 wl2 ml2))
            (drain 1 (set_config_doc (Some (config_of lang1 wl1 ml1)) (drain 1 w)))).
  exists (config_of lang2 wl2 ml2).
  split; [exact (update_config_stored _ _ _ w H1 (healthy_not_fails w Hh))|].
  split.
  - apply update_config_stored; [exact H2|].
    apply healthy_not_fails, healthy_set_config_doc. exact (healthy_drain 1 w Hh).
  - split; [reflexivity|].
    destruct (config_of_fields lang2 wl2 ml2) as (F1 & F2 & F3 & F4).
    repeat (split; [assumption|]). repeat split; reflexivity.
Qed.

End ConfigRoundTrips.

Lemma set_then_get_witness :
  (set_config [7%Z] (fun _ => false) (fun _ => Raise TypeError) 7
     [lit "heb"; lit "0250"] ;;
   get_config [7%Z] 7) (World None None [] [] [])
  = (Ret tt,
     World (Some (config_of (lit "heb") 250 4096)) None
       [ReplyText (lit "Configuration updated successfully.");
        ReplyText (lit "language: heb" ++ [nl] ++ lit "summary words limit: 250" ++ [nl]
                   ++ lit "telegram_msg_limit: 4096" ++ [nl])]
       [] []).
Proof.
  exact (set_then_get [7%Z] (fun _ => false) (fun _ => Raise TypeError) 7%Z
           (lit "heb") (lit "0250") [] 4096 (World None None [] [] [])
           eq_refl (or_intror eq_refl) eq_refl ltac:(cbn; lia)
           (or_introl (conj eq_refl eq_refl))
           ltac:(vm_compute; discriminate) ltac:(lia) (Forall_nil_2 _)).
Defined.

Lemma get_config_edge_cases_witness :
  get_config [7%Z] 7 (World (Some ∅) None [] [] [])
  = (Ret tt,
     World (Some ∅) None [ReplyText (lit "Failed to retrieve configuration.")] [] []).
Proof.
  exact (proj2 (get_config_edge_cases [7%Z] 7%Z (World (Some ∅) None [] [] [])
                  eq_refl (Forall_nil_2 _)) eq_refl).
Defined.

Lemma read_failure_is_raised_witness :
  read_or_initialize_config (World None None [] [] [true])
  = (Raise (ServiceError "firestore"), World None None [] [] []).
Proof.
  exact (proj1 (read_failure_is_raised [7%Z] 7%Z (World None None [] [] [true]) eq_refl)).
Defined.

Lemma update_config_last_write_witness :
  exists w1 w2 d,
    update_config [101; 110; 103]%N 10 100 (World None None [] [] []) = (Ret true, w1)
    /\ update_config [104; 101; 98]%N 20 200 w1 = (Ret true, w2)
    /\ config_doc w2 = Some d
    /\ d !! "lang" = Some (PyStr [104; 101; 98]%N)
    /\ d !! "words_limit" = Some (PyInt 20)
    /\ d !! "telegram_message_size_limit" = Some (PyInt 200)
    /\ size d = 3
    /\ last_article w2 = None
    /\ outbox w2 = []
    /\ prompts w2 = [].
Proof.
  apply (update_config_last_write [101; 110; 103]%N [104; 101; 98]%N 10 100 20 200
           (World None None [] [] [])).
  - unfold valid_config. split; [now left|lia].
  - unfold valid_config. split; [now right|lia].
  - constructor.
Defined.

(** ** Summaries and follow-ups, run through *)

Section Runs.

Variable completion : nat -> str -> result str.
Variable render : str -> result node.
Variable pdf_text : str -> result str.
Variable allowed_users : list Z.
Variable unicode_digit : char -> bool.
Variable int_other : str -> result Z.

Lemma summarize_run (text : str) (flag : bool) (config : gmap string value)
    (w : world) :
  summarize completion text flag config w
  = (match completion (length (prompts w)) (summary_prompt text flag config) with
     | Ret content =>
         match config !! "telegram_message_size_limit" with
         | Some limit =>
             match as_int limit with
             | Some max_chars =>
                 Ret (prepare_message_for_telegram (strip content) max_chars)
             | None => Raise TypeError
             end
         | None => Raise (KeyError "telegram_message_size_limit")
         end
     | Raise e => Raise e
     end,
     set_prompts (prompts w ++ [summary_prompt text flag config]) w).
Proof.
  unfold summarize, bind. rewrite get_openai_summary_run, get_openai_response_run.
  destruct (completion _ _) as [content|e]; [|reflexivity].
  unfold subscript. destruct (config !! _) as [limit|]; [|reflexivity].
  unfold ret, prepare_with. destruct (as_int limit); reflexivity.
Qed.

(** X15.  With a numeric message limit of at least three in the
    configuration and an answer from the completion service, [summarize]
    sends one request and returns the stripped answer, formatted: at most
    that many characters, none of them &, < or >. *)
Theorem summarize_reply (text content : str) (flag : bool)
    (config : gmap string value) (limit : value) (max_chars : Z) (w : world) :
  config !! "telegram_message_size_limit" = Some limit ->
  as_int limit = Some max_chars ->
  (3 <= max_chars)%Z ->
  completion (length (prompts w)) (summary_prompt text flag config) = Ret content ->
  exists reply,
    summarize completion text flag config w
    = (Ret reply, set_prompts (prompts w ++ [summary_prompt text flag config]) w)
    /\ reply = prepare_message_for_telegram (strip content) max_chars
    /\ (Z.of_nat (length reply) <= max_chars)%Z
    /\ plain_chars reply.
Proof.
  intros Hl Hi Hn Hc. eexists. split; [|split; [reflexivity|]].
  - rewrite summarize_run, Hc, Hl, Hi. reflexivity.
  - split; [now apply prepare_length_le|apply prepare_plain].
Qed.

(** X16.  The message limit is read after the request has been sent: with
    a configuration that lacks it, or holds something that is no number,
    [summarize] raises KeyError or TypeError once the answer is there. *)
Theorem summarize_limit_errors (text content : str) (flag : bool)
    (config : gmap string value) (w : world) :
  completion (length (prompts w)) (summary_prompt text flag config) = Ret content ->
  (config !! "telegram_message_size_limit" = None ->
   summarize completion text flag config w
   = (Raise (KeyError "telegram_message_size_limit"),
      set_prompts (prompts w ++ [summary_prompt text flag config]) w))
  /\ (forall limit,
        config !! "telegram_message_size_limit" = Some limit -> as_int limit = None ->
        summarize completion text flag config w
        = (Raise TypeError,
           set_prompts (prompts w ++ [summary_prompt text flag config]) w)).
Proof.
  intros Hc. split.
  - intros Hl. now rewrite summarize_run, Hc, Hl.
  - intros limit Hl Hi. now rewrite summarize_run, Hc, Hl, Hi.
Qed.

Lemma blob_upload_run (text : str) (w : world) :
  try_except (blob_upload text) (fun _ => ret tt) w
  = (Ret tt,
     if storage_fails w then drain 1 w
     else set_last_article (Some text) (drain 1 w)).
Proof.
  unfold try_except, blob_upload, bind. destruct (storage_fails w) eqn:Hs.
  - now rewrite (cloud_call_fails _ w Hs).
  - now rewrite (cloud_call_ok _ w Hs).
Qed.

(** What /summ and the upload handler do once the text is there. *)
Lemma summarize_and_store_run (text content : str) (flag : bool)
    (config : gmap string value) (limit : value) (max_chars : Z) (w : world) :
  storage_fails w = false ->
  config_doc w = Some config ->
  config !! "telegram_message_size_limit" = Some limit ->
  as_int limit = Some max_chars ->
  completion (length (prompts w)) (summary_prompt text flag config) = Ret content ->
  (let* config := read_or_initialize_config in
   let* summary := summarize completion text flag config in
   reply_html summary ;;
   try_except (blob_upload text) (fun _ => ret tt)) w
  = (Ret tt,
     World (config_doc w)
       (if storage_fails (drain 1 w) then last_article w else Some text)
       (outbox w
        ++ [ReplyHtml (prepare_message_for_telegram (strip content) max_chars)])
       (prompts w ++ [summary_prompt text flag config])
       (skipn 2 (faults w))).
Proof.
  intros Hs Hc Hl Hi Hcomp. unfold bind at 1.
  rewrite (read_existing config w Hc Hs). unfold bind at 1.
  rewrite summarize_run. change (prompts (drain 1 w)) with (prompts w).
  rewrite Hcomp, Hl, Hi. unfold bind, reply_html. rewrite blob_upload_run.
  f_equal. clear. destruct w as [doc art out pr fs].
  destruct fs as [|b [|[] fs]]; reflexivity.
Qed.

(** X17.  /summ on a page that gives a text: the configuration is read,
    one request is sent, its formatted answer is the reply, and the text
    becomes the stored article; when the upload fails the reply has been
    sent all the same and the stored article is the one before. *)
Theorem summarize_article_run (user_id : Z) (url : str) (rest : list str)
    (text content : str) (is_full_page : bool) (config : gmap string value)
    (limit : value) (max_chars : Z) (w : world) :
  existsb (Z.eqb user_id) allowed_users = true ->
  str_eqb (lower url) (lit "pdf") = false ->
  extract_from_url render url w = (Ret (text, is_full_page), w) ->
  text <> [] ->
  storage_fails w = false ->
  config_doc w = Some config ->
  config !! "telegram_message_size_limit" = Some limit ->
  as_int limit = Some max_chars ->
  completion (length (prompts w)) (summary_prompt text is_full_page config)
  = Ret content ->
  summarize_article completion render allowed_users user_id (url :: rest) w
  = (Ret tt,
     World (config_doc w)
       (if storage_fails (drain 1 w) then last_article w else Some text)
       (outbox w
        ++ [ReplyHtml (prepare_message_for_telegram (strip content) max_chars)])
       (prompts w ++ [summary_prompt text is_full_page config])
       (skipn 2 (faults w))).
Proof.
  intros Hu Hpdf Hex Hne Hs Hc Hl Hi Hcomp. unfold summarize_article.
  rewrite Hu, Hpdf. cbn [negb]. unfold bind at 1. rewrite Hex. cbn [fst snd].
  destruct text as [|c text]; [congruence|].
  exact (summarize_and_store_run (c :: text) content is_full_page config limit
           max_chars w Hs Hc Hl Hi Hcomp).
Qed.

(** X18.  An uploaded PDF is summarised whatever its text, the empty text
    included: one request is sent, its formatted answer is the reply, and
    the text, empty or not, replaces the stored article. *)
Theorem summarize_pdf_run (user_id : Z) (doc : document) (text content : str)
    (config : gmap string value) (limit : value) (max_chars : Z) (w : world) :
  existsb (Z.eqb user_id) allowed_users = true ->
  mime_type doc = lit "application/pdf" ->
  pdf_text (file_id doc) = Ret text ->
  storage_fails w = false ->
  config_doc w = Some config ->
  config !! "telegram_message_size_limit" = Some limit ->
  as_int limit = Some max_chars ->
  completion (length (prompts w)) (summary_prompt text false config) = Ret content ->
  summarize_pdf completion pdf_text allowed_users user_id (Some doc) w
  = (Ret tt,
     World (config_doc w)
       (if storage_fails (drain 1 w) then last_article w else Some text)
       (outbox w
        ++ [ReplyHtml (prepare_message_for_telegram (strip content) max_chars)])
       (prompts w ++ [summary_prompt text false config])
       (skipn 2 (faults w))).
Proof.
  intros Hu Hm Ht Hs Hc Hl Hi Hcomp. unfold summarize_pdf.
  rewrite Hu, Hm. cbn [negb].
  change (str_eqb (lit "application/pdf") (lit "application/pdf")) with true.
  cbv iota. unfold bind at 1, extract_from_pdf. rewrite Ht.
  exact (summarize_and_store_run text content false config limit max_chars w
           Hs Hc Hl Hi Hcomp).
Qed.

(** X19.  When the stored article cannot be read, because the storage call
    fails or there is no article yet, /resp says so and sends no request to
    the completion service. *)
Theorem respond_summary_unavailable (user_id : Z) (args : list str)
    (config : gmap string value) (w : world) :
  existsb (Z.eqb user_id) allowed_users = true ->
  args <> [] ->
  storage_fails w = false ->
  config_doc w = Some config ->
  storage_fails (drain 1 w) = true \/ last_article w = None ->
  respond_summary completion allowed_users user_id args w
  = (Ret tt,
     set_outbox
       (outbox w
        ++ [ReplyText
              (lit "Failed to retrieve the last article. Please try summarizing a new article.")])
       (drain 2 w)).
Proof.
  intros Hu Ha Hs Hc Hfail. unfold respond_summary. rewrite Hu. cbn [negb].
  destruct args as [|a rest]; [congruence|].
  unfold bind at 1. rewrite (read_existing config w Hc Hs).
  unfold bind at 1. unfold try_except, bind at 1.
  assert (exists e, blob_download (drain 1 w) = (Raise e, drain 2 w)) as [e E].
  { unfold blob_download, bind.
    destruct (storage_fails (drain 1 w)) eqn:Hs1.
    - rewrite (cloud_call_fails _ _ Hs1), drain_drain. eauto.
    - destruct Hfail as [Hf|Hn]; [discriminate|].
      rewrite (cloud_call_ok _ _ Hs1), drain_drain. cbn [Nat.add].
      change (last_article (drain 2 w)) with (last_article w). rewrite Hn. eauto. }
  rewrite E. reflexivity.
Qed.

(** X20.  A sender who is not among the allowed users gets the refusal and
    nothing else happens, whatever the command and its arguments: nothing is
    read, stored, extracted or sent to the completion service. *)
Theorem unauthorized_is_refused (user_id : Z) (args : list str)
    (uploaded : option document) (w : world) :
  existsb (Z.eqb user_id) allowed_users = false ->
  let refused :=
    (Ret tt,
     set_outbox
       (outbox w ++ [ReplyText (lit "You are not authorized to use this command.")]) w) in
  summarize_article completion render allowed_users user_id args w = refused
  /\ respond_summary completion allowed_users user_id args w = refused
  /\ summarize_pdf completion pdf_text allowed_users user_id uploaded w = refused
  /\ set_config allowed_users unicode_digit int_other user_id args w = refused
  /\ get_config allowed_users user_id w = refused.
Proof.
  intros Hu refused.
  unfold summarize_article, respond_summary, summarize_pdf, set_config, get_config.
  rewrite Hu. cbn [negb]. repeat split; reflexivity.
Qed.

End Runs.

Lemma summarize_reply_witness :
  exists reply,
    summarize (fun _ _ => Ret (lit " <p>Done & dusted</p> ")) (lit "text") true
      default_config (World None None [] [] [])
    = (Ret reply,
       set_prompts (prompts (World None None [] [] [])
                    ++ [summary_prompt (lit "text") true default_config])
         (World None None [] [] []))
    /\ reply = prepare_message_for_telegram (strip (lit " <p>Done & dusted</p> ")) 4096
    /\ (Z.of_nat (length reply) <= 4096)%Z
    /\ plain_chars reply.
Proof.
  apply (summarize_reply (fun _ _ => Ret (lit " <p>Done & dusted</p> ")) (lit "text")
           (lit " <p>Done & dusted</p> ") true default_config (PyInt 4096) 4096
           (World None None [] [] [])).
  - reflexivity.
  - reflexivity.
  - lia.
  - reflexivity.
Defined.

Lemma summarize_limit_errors_witness :
  summarize (fun _ _ => Ret (lit "Done")) (lit "text") false ∅ (World None None [] [] [])
  = (Raise (KeyError "telegram_message_size_limit"),
     World None None [] [summary_prompt (lit "text") false ∅] []).
Proof.
  exact (proj1 (summarize_limit_errors (fun _ _ => Ret (lit "Done")) (lit "text")
                  (lit "Done") false ∅ (World None None [] [] []) eq_refl) eq_refl).
Defined.

Lemma summarize_article_run_witness :
  let page := Tag (lit "[document]") [] [Tag (lit "p") [] [NavigableString (lit "News")]] in
  let w := World (Some default_config) (Some (lit "old")) [] [] [false; true] in
  summarize_article (fun _ _ => Ret (lit "Short. ")) (fun _ => Ret page) [7%Z] 7
    [lit "http://example.org"] w
  = (Ret tt,
     World (Some default_config) (Some (lit "old")) [ReplyHtml (lit "Short.")]
       [summary_prompt (lit "News") true default_config] []).
Proof.
  cbv zeta.
  exact (summarize_article_run (fun _ _ => Ret (lit "Short. "))
           (fun _ => Ret (Tag (lit "[document]") []
                            [Tag (lit "p") [] [NavigableString (lit "News")]]))
           [7%Z] 7%Z (lit "http://example.org") [] (lit "News") (lit "Short. ") true
           default_config (PyInt 4096) 4096
           (World (Some default_config) (Some (lit "old")) [] [] [false; true])
           eq_refl eq_refl eq_refl ltac:(discriminate) eq_refl eq_refl eq_refl eq_refl
           eq_refl).
Defined.

Lemma summarize_pdf_run_witness :
  let w := World (Some default_config) (Some (lit "old")) [] [] [] in
  summarize_pdf (fun _ _ => Ret (lit "Nothing to say")) (fun _ => Ret []) [7%Z] 7
    (Some (Document (lit "f1") (lit "application/pdf"))) w
  = (Ret tt,
     World (Some default_config) (Some []) [ReplyHtml (lit "Nothing to say")]
       [summary_prompt [] false default_config] []).
Proof.
  cbv zeta.
  exact (summarize_pdf_run (fun _ _ => Ret (lit "Nothing to say")) (fun _ => Ret [])
           [7%Z] 7%Z (Document (lit "f1") (lit "application/pdf")) []
           (lit "Nothing to say") default_config (PyInt 4096) 4096
           (World (Some default_config) (Some (lit "old")) [] [] [])
           eq_refl eq_refl eq_refl eq_refl eq_refl eq_refl eq_refl eq_refl).
Defined.

Lemma respond_summary_unavailable_witness :
  respond_summary (fun _ _ => Ret (lit "unused")) [7%Z] 7 [lit "why?"]
    (World (Some default_config) None [] [] [])
  = (Ret tt,
     World (Some default_config) None
       [ReplyText
          (lit "Failed to retrieve the last article. Please try summarizing a new article.")]
       [] []).
Proof.
  exact (respond_summary_unavailable (fun _ _ => Ret (lit "unused")) [7%Z] 7%Z
           [lit "why?"] default_config (World (Some default_config) None [] [] [])
           eq_refl ltac:(discriminate) eq_refl eq_refl (or_intror eq_refl)).
Defined.

Lemma unauthorized_is_refused_witness :
  get_config [7%Z] 8 (World None None [] [] [])
  = (Ret tt,
     World None None [ReplyText (lit "You are not authorized to use this command.")]
       [] []).
Proof.
  exact (proj2 (proj2 (proj2 (proj2
           (unauthorized_is_refused (fun _ _ => Ret []) (fun _ => Raise TypeError)
              (fun _ => Raise TypeError) [7%Z] (fun _ => false)
              (fun _ => Raise TypeError) 8%Z [] None (World None None [] [] [])
              eq_refl))))).
Defined.

(** ** The formatter: sentence breaks *)

Section SentenceBreaks.

Lemma clean_markup_no_break (summary : str) :
  occurs (lit ". ") (clean_markup summary) = false.
Proof.
  unfold clean_markup.
  match goal with
  | |- context [replace (lit ". ") _ ?x] => generalize x; intros s4
  end.
  apply not_true_is_false. intros E.
  change (replace (lit ". ") (lit "." ++ [nl]) s4)
    with (replace_from [46%N; 32%N] [46%N; nl] 0 s4) in E.
  apply (breaks_pairs 46%N) in E as [_ E]; [congruence|discriminate].
Qed.

(** X21.  Whatever the input and the budget, no full stop is followed by a
    space in the formatted text: each such place has become a line break,
    and the cut with its ellipsis brings none back. *)
Theorem format_breaks_every_sentence (summary : str) (max_chars : Z) :
  occurs (lit ". ") (prepare_message_for_telegram summary max_chars) = false.
Proof.
  unfold prepare_message_for_telegram.
  pose proof (clean_markup_no_break summary) as Hc.
  destruct (max_chars <? Z.of_nat (length (clean_markup summary)))%Z; [|exact Hc].
  change (lit ". ") with [46%N; 32%N] in *. rewrite occurs_pair_dots.
  apply not_true_is_false. intros E. unfold slice_to in E.
  destruct (0 <=? max_chars - 3)%Z; apply occurs_firstn in E; congruence.
Qed.

End SentenceBreaks.

(** ** The AWS managers *)

Section AwsFacts.

Import Aws.

Lemma call_items (c : cloud) :
  items (snd (call c)) = items c /\ last_object (snd (call c)) = last_object c.
Proof. unfold call. destruct (coming c); split; reflexivity. Qed.

(** X22.  What [put_item] has stored under a key, [get_item] returns for
    that key; the items under the other keys are as they were; and
    [put_item] returns true exactly when its call was served. *)
Theorem put_item_then_get_item (key v : str) (c : cloud) :
  fst (call (snd (put_item key v c))) = Served ->
  (fst (put_item key v c) = Ret true <-> fst (call c) = Served)
  /\ (fst (put_item key v c) = Ret true ->
      fst (get_item key (snd (put_item key v c))) = Ret (PyStr v)
      /\ forall key', key' <> key ->
           items (snd (put_item key v c)) !! key' = items c !! key').
Proof.
  intros Hnext. unfold put_item in *.
  pose proof (call_items c) as [Hi _].
  destruct (call c) as [[| |] c1] eqn:Ec; cbn [fst snd] in *.
  - split; [tauto|]. intros _. split.
    + unfold get_item.
      set (stored := Cloud (<[key:=item_of key v]> (items c1))
                       (last_object c1) (coming c1)) in *.
      pose proof (call_items stored) as [Hi2 _].
      destruct (call stored) as [o c2]. cbn [fst snd] in *. subst o.
      cbn [fst]. rewrite Hi2. unfold stored. cbn [items].
      rewrite lookup_insert_eq. reflexivity.
    + intros key' Hne. cbn [items]. rewrite lookup_insert_ne by congruence.
      now rewrite Hi.
  - split; [split; discriminate|discriminate].
  - split; [split; discriminate|discriminate].
Qed.

(** X23.  A [ClientError] is swallowed: [put_item] returns false and the
    table is as it was, and [get_item] returns [None], which is also what
    it returns for a key that has no item. *)
Theorem dynamodb_soft_errors (key v : str) (c : cloud) :
  (fst (call c) = ClientError ->
   fst (put_item key v c) = Ret false
   /\ items (snd (put_item key v c)) = items c
   /\ fst (get_item key c) = Ret PyNone)
  /\ (fst (call c) = Served -> items c !! key = None ->
      fst (get_item key c) = Ret PyNone).
Proof.
  pose proof (call_items c) as [Hi _]. unfold put_item, get_item.
  destruct (call c) as [[| |] c1]; cbn [fst snd] in *; split;
    try discriminate; try (intros _; repeat split; assumption).
  intros _ Hk. rewrite Hi, Hk. reflexivity.
Qed.

Variable encode : str -> result (list N).
Variable decode : list N -> result str.

(** X24.  An article that [store_article] has stored comes back from
    [retrieve_article] as it was, provided that decoding undoes encoding on
    it and that the two calls are served. *)
Theorem store_then_retrieve (text : str) (body : list N) (c : cloud) :
  encode text = Ret body -> decode body = Ret text ->
  fst (call c) = Served ->
  fst (call (snd (store_article encode text c))) = Served ->
  fst (store_article encode text c) = Ret tt
  /\ fst (retrieve_article decode (snd (store_article encode text c))) = Ret text.
Proof.
  intros He Hd Hc Hnext. unfold store_article in *. rewrite He in *.
  destruct (call c) as [o c1]. cbn [fst] in Hc. subst o. cbn [fst snd] in *.
  split; [reflexivity|]. unfold retrieve_article.
  set (stored := Cloud (items c1) (Some body) (coming c1)) in *.
  pose proof (call_items stored) as [_ Hl].
  destruct (call stored) as [o c2]. cbn [fst snd] in *. subst o.
  rewrite Hl. unfold stored. cbn [last_object fst]. exact Hd.
Qed.

(** X25.  The caller of the S3 manager is not told of a [ClientError]:
    [store_article] returns as if it had stored, with the old article in
    place, and [retrieve_article] returns the empty text. *)
Theorem s3_failures_are_silent (text : str) (body : list N) (c : cloud) :
  encode text = Ret body ->
  fst (call c) = ClientError ->
  fst (store_article encode text c) = Ret tt
  /\ last_object (snd (store_article encode text c)) = last_object c
  /\ fst (retrieve_article decode c) = Ret [].
Proof.
  intros He Hc. unfold store_article, retrieve_article. rewrite He.
  pose proof (call_items c) as [_ Hl].
  destruct (call c) as [o c1]. cbn [fst snd] in *. subst o.
  cbn [fst snd]. auto.
Qed.

End AwsFacts.

Lemma put_item_then_get_item_witness :
  fst (Aws.get_item (lit "config")
         (snd (Aws.put_item (lit "config") (lit "eng") (Aws.Cloud ∅ None []))))
  = Ret (PyStr (lit "eng")).
Proof.
  exact (proj1 (proj2 (put_item_then_get_item (lit "config") (lit "eng")
                         (Aws.Cloud ∅ None []) eq_refl) eq_refl)).
Defined.

Lemma dynamodb_soft_errors_witness :
  fst (Aws.get_item (lit "config") (Aws.Cloud ∅ None [])) = Ret PyNone.
Proof.
  exact (proj2 (dynamodb_soft_errors (lit "config") (lit "eng") (Aws.Cloud ∅ None []))
           eq_refl eq_refl).
Defined.

Lemma store_then_retrieve_witness :
  fst (Aws.store_article (fun s => Ret s) (lit "article") (Aws.Cloud ∅ None [])) = Ret tt
  /\ fst (Aws.retrieve_article (fun b => Ret b)
            (snd (Aws.store_article (fun s => Ret s) (lit "article")
                    (Aws.Cloud ∅ None []))))
     = Ret (lit "article").
Proof.
  exact (store_then_retrieve (fun s => Ret s) (fun b => Ret b) (lit "article")
           (lit "article") (Aws.Cloud ∅ None []) eq_refl eq_refl eq_refl eq_refl).
Defined.

Lemma s3_failures_are_silent_witness :
  fst (Aws.store_article (fun s => Ret s) (lit "new")
         (Aws.Cloud ∅ (Some (lit "old")) [Aws.ClientError])) = Ret tt
  /\ Aws.last_object
       (snd (Aws.store_article (fun s => Ret s) (lit "new")
               (Aws.Cloud ∅ (Some (lit "old")) [Aws.ClientError])))
     = Some (lit "old")
  /\ fst (Aws.retrieve_article (fun b => Ret b)
            (Aws.Cloud ∅ (Some (lit "old")) [Aws.ClientError])) = Ret [].
Proof.
  exact (s3_failures_are_silent (fun s => Ret s) (fun b => Ret b) (lit "new") (lit "new")
           (Aws.Cloud ∅ (Some (lit "old")) [Aws.ClientError]) eq_refl eq_refl).
Defined.
